(** * myBERT/train1.py: ingestion, BERT+BiLSTM classifier, training loop and
    evaluation, as a shallow embedding.

    The script is modelled the way it is written:
    - [convert_to_text_label] reads a file of [text<TAB>label] lines;
    - the module-level code offsets every raw label by 2;
    - [BERTBiLSTM.forward], [train] and [evaluate] run in a small
      state-and-exception monad over the interpreter state they touch (the
      model object, the global random generator, standard output).

    Tensor scalars are floating-point numbers in the source.  They are kept
    abstract here (a type [R] with the operations the script needs); the
    pretrained encoder, the LSTM cell, the loss, the F1 score, autograd and
    the AdamW update rule are components of a [Backend] interface.  Control
    flow, shapes, label bookkeeping, file parsing and error propagation are
    concrete and executable. *)

From Stdlib Require Import ZArith QArith Lia Bool Ascii String.
From Stdlib Require Import List Permutation Sorted.
Import ListNotations.

Local Open Scope Z_scope.
Local Open Scope string_scope.
Local Open Scope list_scope.

(** ** Python exceptions and results *)

Inductive exn : Type :=
| FileNotFoundError
| IndexError
| ValueError
| TypeError
| RuntimeError
| ZeroDivisionError
| OverflowError.

Inductive result (A : Type) : Type :=
| Ok (a : A)
| Raise (e : exn).
Arguments Ok {A} a.
Arguments Raise {A} e.

Definition is_ok {A} (r : result A) : bool :=
  match r with Ok _ => true | Raise _ => false end.

(** ** Ingestion: [convert_to_text_label] (train1.py, lines 61-70) *)

Module Ingest.

(** A Python [str]: the sequence of its code points. *)
Definition pystr : Type := list N.

Definition tab : N := 9%N.
Definition newline : N := 10%N.

(** What [int()] takes from the interpreter and not from the script: the
    Unicode database's white-space and decimal-digit properties of the code
    points from 127 on, and the cap on the number of digits of a decimal
    literal ([sys.get_int_max_str_digits()]; 0 when there is none, as in the
    interpreters that predate it). *)
Record Interpreter : Type := {
  unicode_isspace : N -> bool;          (* Py_UNICODE_ISSPACE *)
  unicode_todecimal : N -> option N;    (* Py_UNICODE_TODECIMAL, 0..9 *)
  max_str_digits : nat
}.

(** [fs.readlines()]: the file's text cut after every newline; the newline
    stays at the end of its line, and a last line without one is kept. *)
Fixpoint readlines (s : pystr) : list pystr :=
  match s with
  | [] => []
  | c :: s' =>
      if N.eqb c newline then [c] :: readlines s'
      else match readlines s' with
           | l :: ls => (c :: l) :: ls
           | [] => [[c]]
           end
  end.

(** [line.split(sep)]: the fields between separators; always at least one. *)
Fixpoint split (sep : N) (s : pystr) : list pystr :=
  match s with
  | [] => [[]]
  | c :: s' =>
      if N.eqb c sep then [] :: split sep s'
      else match split sep s' with
           | f :: fs => (c :: f) :: fs
           | [] => [[c]]
           end
  end.

(** *** [int(s)] on a string, base 10

    As CPython does it: the string is first brought to ASCII, then parsed as
    a C string. *)

Definition is_ascii (s : pystr) : bool := forallb (fun ch => (ch <? 128)%N) s.

(** A string that is not ASCII: code points below 127 are kept, a Unicode
    blank becomes a space, a Unicode decimal digit becomes its ASCII digit,
    and at any other character the text is cut after a question mark. *)
Fixpoint transform_chars (py : Interpreter) (s : pystr) : list N :=
  match s with
  | [] => []
  | ch :: rest =>
      if (ch <? 127)%N then ch :: transform_chars py rest
      else if unicode_isspace py ch then 32%N :: transform_chars py rest
      else match unicode_todecimal py ch with
           | None => [63%N]
           | Some d => (48 + d)%N :: transform_chars py rest
           end
  end.

(** An ASCII string is parsed as it is. *)
Definition to_ascii (py : Interpreter) (s : pystr) : list N :=
  if is_ascii s then s else transform_chars py s.

(** The blanks the parser skips at both ends: tab, newline, vertical tab,
    form feed, carriage return and the space. *)
Definition is_space (c : N) : bool :=
  ((9 <=? c)%N && (c <=? 13)%N) || (c =? 32)%N.

Fixpoint skip_spaces (l : list N) : list N :=
  match l with
  | c :: l' => if is_space c then skip_spaces l' else l
  | [] => []
  end.

Definition digit_of (c : N) : option Z :=
  if ((48 <=? c)%N && (c <=? 57)%N) then Some (Z.of_N c - 48) else None.

(** The run of digits, with single underscores allowed between digits: its
    value, the number of digits and what follows it.  Two underscores in a
    row, or an underscore at the end of the run, are an error. *)
Fixpoint scan_digits (acc : Z) (ndigits : nat) (prev_underscore : bool) (l : list N)
  : option (Z * nat * list N) :=
  match l with
  | [] => if prev_underscore then None else Some (acc, ndigits, [])
  | c :: l' =>
      match digit_of c with
      | Some d => scan_digits (10 * acc + d) (S ndigits) false l'
      | None =>
          if (c =? 95)%N
          then (if prev_underscore then None else scan_digits acc ndigits true l')
          else (if prev_underscore then None else Some (acc, ndigits, l))
      end
  end.

(** More than 640 digits are refused when they exceed the interpreter's cap. *)
Definition exceeds_cap (py : Interpreter) (ndigits : nat) : bool :=
  (640 <? ndigits)%nat && (0 <? max_str_digits py)%nat
  && (max_str_digits py <? ndigits)%nat.

(** After the sign: no leading underscore, at least one digit, the cap, and
    nothing but blanks after the digits. *)
Definition parse_unsigned (py : Interpreter) (l : list N) : option Z :=
  match l with
  | 95%N :: _ => None
  | _ =>
      match scan_digits 0 0 false l with
      | None => None
      | Some (n, ndigits, rest) =>
          if (ndigits =? 0)%nat then None
          else if exceeds_cap py ndigits then None
          else match skip_spaces rest with
               | [] => Some n
               | _ :: _ => None
               end
      end
  end.

(** [int(s)]; every failure is a [ValueError]. *)
Definition pyint (py : Interpreter) (s : pystr) : result Z :=
  let l := skip_spaces (to_ascii py s) in
  let r := match l with
           | 43%N :: ds => parse_unsigned py ds
           | 45%N :: ds => option_map Z.opp (parse_unsigned py ds)
           | _ => parse_unsigned py l
           end in
  match r with
  | Some n => Ok n
  | None => Raise ValueError
  end.

(** [l[i]] for a non-negative index. *)
Definition getitem {A} (l : list A) (i : nat) : result A :=
  match nth_error l i with
  | Some a => Ok a
  | None => Raise IndexError
  end.

(** The body of [for line in lines:], with the two lists built so far. *)
Fixpoint lines_loop (py : Interpreter) (lines : list pystr)
    (text : list pystr) (label : list Z) : result (list pystr * list Z) :=
  match lines with
  | [] => Ok (text, label)
  | line :: rest =>
      let split_cnt := split tab line in
      match getitem split_cnt 0 with
      | Raise e => Raise e
      | Ok t =>
          let text := text ++ [t] in
          match getitem split_cnt 1 with
          | Raise e => Raise e
          | Ok f =>
              match pyint py f with
              | Raise e => Raise e
              | Ok n => lines_loop py rest text (label ++ [n])
              end
          end
      end
  end.

(** The files the script can open: a name maps to the file's text, as
    [open(filename)] in text mode presents it. *)
Definition filesystem := string -> option pystr.

Definition convert_to_text_label (py : Interpreter) (fs : filesystem)
    (filename : string) : result (list pystr * list Z) :=
  match fs filename with
  | None => Raise FileNotFoundError
  | Some content => lines_loop py (readlines content) [] []
  end.

(** *** Label normalisation (train1.py, lines 72-81, 134 and 150) *)

(** [[int(ids)-2 for ids in labels]]; [int] of an integer is the integer. *)
Definition normalize_labels (labels : list Z) : list Z :=
  map (fun ids => ids - 2) labels.

(** Lines 72-81: train.txt and dev.txt are read in this order, appended to the
    same two lists, and the labels of both are offset together. *)
Definition load_train (py : Interpreter) (fs : filesystem)
  : result (list pystr * list Z) :=
  let train_texts := [] in
  let train_labels := [] in
  match convert_to_text_label py fs "./myBERT/train.txt" with
  | Raise e => Raise e
  | Ok (new_text, new_label) =>
      let train_texts := train_texts ++ new_text in
      let train_labels := train_labels ++ new_label in
      match convert_to_text_label py fs "./myBERT/dev.txt" with
      | Raise e => Raise e
      | Ok (new_text, new_label) =>
          let train_texts := train_texts ++ new_text in
          let train_labels := train_labels ++ new_label in
          Ok (train_texts, normalize_labels train_labels)
      end
  end.

(** Lines 134 and 150. *)
Definition load_test (py : Interpreter) (fs : filesystem)
  : result (list pystr * list Z) :=
  match convert_to_text_label py fs "./myBERT/test.txt" with
  | Raise e => Raise e
  | Ok (test_texts, test_labels) => Ok (test_texts, normalize_labels test_labels)
  end.

(** What the claims about ingestion speak of. *)

Definition has_tab (line : pystr) : bool := existsb (N.eqb tab) line.

(** The part of a line before its first tab (the whole line if it has none). *)
Fixpoint before_first_tab (s : pystr) : pystr :=
  match s with
  | [] => []
  | c :: s' => if N.eqb c tab then [] else c :: before_first_tab s'
  end.

(** The part of a line after its first tab (empty if it has none). *)
Fixpoint after_first_tab (s : pystr) : pystr :=
  match s with
  | [] => []
  | c :: s' => if N.eqb c tab then s' else after_first_tab s'
  end.

(** The text between the first tab and the second one (or the line's end). *)
Definition second_field (line : pystr) : pystr :=
  before_first_tab (after_first_tab line).

(** A line the loop accepts: a tab, and an integer literal after it. *)
Definition well_formed_line (py : Interpreter) (line : pystr) : bool :=
  has_tab line && is_ok (pyint py (second_field line)).

End Ingest.

(** ** Tensors, the model object and the numeric backend *)

(** The three owned sub-components of the classifier ([self.bert],
    [self.lstm], [self.classifier]); [nn.Dropout] has no parameters. *)
Record Linear (R : Type) : Type := mkLinear {
  in_features : nat;
  out_features : nat;
  weight : list (list R);      (* out_features rows of in_features entries *)
  bias : list R                (* out_features entries *)
}.
Arguments mkLinear {R}.
Arguments in_features {R}.
Arguments out_features {R}.
Arguments weight {R}.
Arguments bias {R}.

Record Params (R BertW LstmW : Type) : Type := mkParams {
  bert : BertW;
  lstm : LstmW;
  classifier : Linear R
}.
Arguments mkParams {R BertW LstmW}.
Arguments bert {R BertW LstmW}.
Arguments lstm {R BertW LstmW}.
Arguments classifier {R BertW LstmW}.

(** What [loss.backward()] differentiates: the batch and the generator state
    the forward pass started from. *)
Record Tape (Rng : Type) : Type := mkTape {
  tape_input_ids : list (list Z);
  tape_attention_mask : list (list Z);
  tape_labels : list Z;
  tape_rng : Rng
}.
Arguments mkTape {Rng}.

(** The libraries the script calls, as an interface.  Floating-point
    arithmetic and the library internals are not modelled: [R] is the type
    of tensor entries and Python floats. *)
Class Backend : Type := {
  R : Type;
  r0 : R;                                   (* 0 *)
  radd : R -> R -> R;
  rmul : R -> R -> R;
  rltb : R -> R -> bool;                    (* strict order, used by argmax *)
  rdiv : R -> nat -> R;                     (* x / n for a positive n *)
  Rng : Type;                               (* torch's global generator *)
  rand_uniform : Rng -> R * Rng;            (* one draw of a weight initialiser *)
  bernoulli_keep : Rng -> bool * Rng;       (* one dropout decision, p = 0.1 *)
  dropout_scale : R -> R;                   (* x / (1 - 0.1) *)
  randperm : Rng -> nat -> list nat * Rng;  (* torch.randperm(n) *)
  BertW : Type;
  from_pretrained : string -> BertW;
  bert_hidden_size : BertW -> nat;          (* bert.config.hidden_size *)
  bert_forward : BertW -> list (list Z) -> list (list Z)
                 -> result (list (list (list R)));   (* last_hidden_state *)
  LstmW : Type;
  (* nn.LSTM(input_size, hidden_size, num_layers=1, batch_first=True,
     bidirectional=True) *)
  nn_LSTM : nat -> nat -> Rng -> LstmW * Rng;
  (* lstm_output, (h_n, c_n) *)
  lstm_forward : LstmW -> list (list (list R))
                 -> result (list (list (list R))
                            * (list (list (list R)) * list (list (list R))));
  cross_entropy : list (list R) -> list Z -> result R;  (* nn.CrossEntropyLoss *)
  f1_weighted : list Z -> list Z -> R;      (* f1_score(.., average='weighted') *)
  Grad : Type;
  grad_add : Grad -> Grad -> Grad;
  autograd : Params R BertW LstmW -> Tape Rng -> Grad;
  OptState : Type;
  AdamW_init : Params R BertW LstmW -> Q -> OptState;
  AdamW_update : OptState -> Params R BertW LstmW -> Grad
                 -> OptState * Params R BertW LstmW
}.

(** Shapes. *)
Definition shape2 {A} (t : list (list A)) (d0 d1 : nat) : Prop :=
  length t = d0 /\ Forall (fun row => length row = d1) t.

Definition shape3 {A} (t : list (list (list A))) (d0 d1 d2 : nat) : Prop :=
  length t = d0 /\ Forall (fun m => shape2 m d1 d2) t.

(** The contracts of the two opaque layers: on a well-shaped batch of at
    least one example the encoder returns one vector of [hidden_size] entries
    per token, and the bidirectional one-layer LSTM returns [h_n] with one
    matrix per direction. *)
Class BackendLaws (B : Backend) : Prop := {
  bert_forward_shape :
    forall (w : BertW) ids mask (b l : nat),
      (1 <= b)%nat -> (1 <= l)%nat -> (l <= 512)%nat ->
      shape2 ids b l -> shape2 mask b l ->
      exists out, bert_forward w ids mask = Ok out
                  /\ shape3 out b l (bert_hidden_size w);
  lstm_forward_shape :
    forall (i h : nat) (g : Rng) x (b l : nat),
      (1 <= b)%nat -> (1 <= l)%nat ->
      shape3 x b l i ->
      exists out h_n c_n,
        lstm_forward (fst (nn_LSTM i h g)) x = Ok (out, (h_n, c_n))
        /\ shape3 h_n 2 b h;
  randperm_perm :
    forall (g : Rng) (n : nat), Permutation (fst (randperm g n)) (seq 0 n)
}.

(** Python values that cross a function boundary in [train]. *)
Inductive pyobj {B : Backend} : Type :=
| PyNone
| PyFloat (r : R)
| PyTuple2 (a b : pyobj).

(** The calls made on the model and the optimizer, in order. *)
Inductive Event : Type :=
| EvModelTrain                (* model.train() *)
| EvModelEval                 (* model.eval() *)
| EvZeroGrad                  (* optimizer.zero_grad() *)
| EvForward (grad_enabled : bool)   (* model(input_ids, attention_mask) *)
| EvLoss                      (* criterion(logits, labels) *)
| EvBackward                  (* loss.backward() *)
| EvStep (lr : Q).            (* optimizer.step() *)

(** One row per class of the classification report: the name and the counts
    precision, recall and F1 are computed from. *)
Record ReportRow : Type := mkRow {
  row_name : string;
  row_label : Z;
  row_true_positive : nat;
  row_predicted : nat;
  row_support : nat
}.

Inductive Output {B : Backend} : Type :=
| OutLine (s : string)
| OutEpoch (epoch epochs : Z) (train_loss train_f1 : R) (val : option (R * R))
| OutReport (rows : list ReportRow)
| OutMatrix (cm : list (list nat)).

(** The part of the interpreter state the script's functions read and write. *)
Record World {B : Backend} : Type := mkWorld {
  params : Params R BertW LstmW;      (* model.parameters() *)
  grad : option Grad;                 (* the parameters' .grad *)
  training : bool;                    (* model.training *)
  rng : Rng;
  stdout : list Output;
  trace : list Event
}.
Arguments mkWorld {B}.

Inductive Sampler : Type := RandomSampler | SequentialSampler.

Definition Example : Type := (list Z * list Z * Z)%type.
Definition Batch : Type := (list (list Z) * list (list Z) * list Z)%type.

Record DataLoader : Type := mkDataLoader {
  dataset : list Example;             (* TensorDataset(input_ids, masks, labels) *)
  sampler : Sampler;
  batch_size : nat
}.

(** ** The state-and-exception monad

    A computation runs from a [World] to the world it leaves behind and
    either a value or the exception it raised; the world survives a raise. *)

Definition M {B : Backend} (A : Type) : Type := World -> World * result A.

Definition ret {B : Backend} {A} (a : A) : M A := fun w => (w, Ok a).

Definition bind {B : Backend} {A C} (m : M A) (k : A -> M C) : M C :=
  fun w => match m w with
           | (w', Ok a) => k a w'
           | (w', Raise e) => (w', Raise e)
           end.

Definition lift {B : Backend} {A} (r : result A) : M A := fun w => (w, r).

Definition log {B : Backend} (e : Event) : M unit :=
  fun w => (mkWorld (params w) (grad w) (training w) (rng w) (stdout w)
                    (trace w ++ [e]), Ok tt).

Definition print {B : Backend} (o : Output) : M unit :=
  fun w => (mkWorld (params w) (grad w) (training w) (rng w) (stdout w ++ [o])
                    (trace w), Ok tt).

Definition set_training {B : Backend} (b : bool) : M unit :=
  fun w => (mkWorld (params w) (grad w) b (rng w) (stdout w) (trace w), Ok tt).

Definition set_grad {B : Backend} (g : option Grad) : M unit :=
  fun w => (mkWorld (params w) g (training w) (rng w) (stdout w) (trace w), Ok tt).

Definition set_params {B : Backend} (p : Params R BertW LstmW) : M unit :=
  fun w => (mkWorld p (grad w) (training w) (rng w) (stdout w) (trace w), Ok tt).

(** Run a draw of the generator. *)
Definition with_rng {B : Backend} {A} (f : Rng -> A * Rng) : M A :=
  fun w => let (a, g) := f (rng w) in
           (mkWorld (params w) (grad w) (training w) g (stdout w) (trace w), Ok a).

Notation "x <- m ;; k" := (bind m (fun x => k))
  (at level 61, m at next level, right associativity).
Notation "' pat <- m ;; k" := (bind m (fun x => match x with pat => k end))
  (at level 61, pat pattern, m at next level, right associativity).
Notation "m ;;; k" := (bind m (fun _ => k))
  (at level 61, right associativity).

(** ** The Sequence Classifier (train1.py, lines 7-22) *)

Section Classifier.
Context {B : Backend}.

(** [n] draws of the initialiser. *)
Fixpoint rand_list (n : nat) (g : Rng) : list R * Rng :=
  match n with
  | O => ([], g)
  | S n' => let (x, g1) := rand_uniform g in
            let (xs, g2) := rand_list n' g1 in
            (x :: xs, g2)
  end.

Fixpoint rand_matrix (rows cols : nat) (g : Rng) : list (list R) * Rng :=
  match rows with
  | O => ([], g)
  | S rows' => let (r, g1) := rand_list cols g in
               let (m, g2) := rand_matrix rows' cols g1 in
               (r :: m, g2)
  end.

(** [nn.Linear(in_features, out_features)]: a randomly initialised weight
    matrix and bias. *)
Definition nn_Linear (inf outf : nat) (g : Rng) : Linear R * Rng :=
  let (w, g1) := rand_matrix outf inf g in
  let (b, g2) := rand_list outf g1 in
  (mkLinear inf outf w b, g2).

(** [BERTBiLSTM.__init__]; the argument [hidden_size] is not used by the
    source, the LSTM's input size is the encoder's configured one.  The
    constructor is modelled where the two library constructors return:
    [from_pretrained] finding no model, and [nn.LSTM] refusing a hidden size
    of 0, are failures of the libraries that are left out. *)
Definition BERTBiLSTM_init (bert_path : string)
    (num_labels hidden_size lstm_hidden_size : nat) (g : Rng)
  : Params R BertW LstmW * Rng :=
  let self_bert := from_pretrained bert_path in
  let (self_lstm, g1) := nn_LSTM (bert_hidden_size self_bert) lstm_hidden_size g in
  let (self_classifier, g2) := nn_Linear (2 * lstm_hidden_size) num_labels g1 in
  (mkParams self_bert self_lstm self_classifier, g2).

(** [t[-k]] for [k >= 1]. *)
Definition getitem_neg {A} (l : list A) (k : nat) : result A :=
  if (k <=? length l)%nat then Ingest.getitem l (length l - k) else Raise IndexError.

(** [torch.cat((a, b), dim=1)] of two matrices. *)
Definition cat_dim1 (a b : list (list R)) : result (list (list R)) :=
  if (length a =? length b)%nat
  then Ok (map (fun p => fst p ++ snd p) (combine a b))
  else Raise RuntimeError.

(** [nn.Dropout(0.1)] in training mode: each entry is kept and rescaled, or
    zeroed, by a draw of the generator. *)
Fixpoint dropout_row (x : list R) (g : Rng) : list R * Rng :=
  match x with
  | [] => ([], g)
  | v :: x' => let (keep, g1) := bernoulli_keep g in
               let (r, g2) := dropout_row x' g1 in
               ((if keep then dropout_scale v else r0) :: r, g2)
  end.

Fixpoint dropout_rows (x : list (list R)) (g : Rng) : list (list R) * Rng :=
  match x with
  | [] => ([], g)
  | row :: x' => let (r, g1) := dropout_row row g in
                 let (rs, g2) := dropout_rows x' g1 in
                 (r :: rs, g2)
  end.

(** [self.dropout(h_n)]: the identity when the model is in evaluation mode. *)
Definition dropout (x : list (list R)) : M (list (list R)) :=
  fun w => if training w then with_rng (dropout_rows x) w else (w, Ok x).

Definition dot (w x : list R) : R :=
  fold_left radd (map (fun p => rmul (fst p) (snd p)) (combine x w)) r0.

Definition linear_row (l : Linear R) (x : list R) : list R :=
  map (fun wb => radd (dot (fst wb) x) (snd wb)) (combine (weight l) (bias l)).

(** [self.classifier(h_n)]: rows of the wrong width are a shape error. *)
Definition linear (l : Linear R) (x : list (list R)) : result (list (list R)) :=
  if forallb (fun row => (length row =? in_features l)%nat) x
  then Ok (map (linear_row l) x)
  else Raise RuntimeError.

(** [BERTBiLSTM.forward] on the model held by the world. *)
Definition forward (input_ids attention_mask : list (list Z)) : M (list (list R)) :=
  p <- (fun w => (w, Ok (params w))) ;;
  outputs <- lift (bert_forward (bert p) input_ids attention_mask) ;;
  let sequence_output := outputs in
  '(lstm_output, (h_n, c_n)) <- lift (lstm_forward (lstm p) sequence_output) ;;
  fw <- lift (getitem_neg h_n 2) ;;
  bw <- lift (getitem_neg h_n 1) ;;
  h_n <- lift (cat_dim1 fw bw) ;;
  h_n <- dropout h_n ;;
  logits <- lift (linear (classifier p) h_n) ;;
  ret logits.

(** Index of the first largest entry of a row ([logits.argmax(1)] and the
    indices of [torch.max(outputs, dim=1)]); an empty row is an error. *)
Fixpoint argmax_from (best : R) (best_i : Z) (i : Z) (row : list R) : Z :=
  match row with
  | [] => best_i
  | v :: row' => if rltb best v then argmax_from v i (i + 1) row'
                 else argmax_from best best_i (i + 1) row'
  end.

Definition argmax_row (row : list R) : result Z :=
  match row with
  | [] => Raise IndexError
  | v :: row' => Ok (argmax_from v 0 1 row')
  end.

Fixpoint argmax_dim1 (t : list (list R)) : result (list Z) :=
  match t with
  | [] => Ok []
  | row :: t' =>
      match argmax_row row with
      | Raise e => Raise e
      | Ok i => match argmax_dim1 t' with
                | Raise e => Raise e
                | Ok rest => Ok (i :: rest)
                end
      end
  end.

End Classifier.

(** ** Batch streams: [TensorDataset], samplers and [DataLoader] *)

Section Data.
Context {B : Backend}.

(** The index order a sampler yields for a dataset of [n] examples; the
    random sampler draws a fresh permutation each time it is iterated. *)
Definition sampler_indices (s : Sampler) (n : nat) : M (list nat) :=
  match s with
  | SequentialSampler => ret (seq 0 n)
  | RandomSampler => with_rng (fun g => randperm g n)
  end.

(** [BatchSampler] with [drop_last=False]: indices are appended to [batch],
    which is yielded when it reaches [bs]; a shorter last batch is kept. *)
Fixpoint batch_sampler (bs : nat) (idx : list nat) (batch : list nat)
  : list (list nat) :=
  match idx with
  | [] => if (0 <? length batch)%nat then [batch] else []
  | i :: rest =>
      let batch := batch ++ [i] in
      if (length batch =? bs)%nat then batch :: batch_sampler bs rest []
      else batch_sampler bs rest batch
  end.

(** [[dataset[i] for i in batch]]. *)
Fixpoint fetch (ds : list Example) (batch : list nat) : result (list Example) :=
  match batch with
  | [] => Ok []
  | i :: rest =>
      match Ingest.getitem ds i with
      | Raise e => Raise e
      | Ok x => match fetch ds rest with
                | Raise e => Raise e
                | Ok xs => Ok (x :: xs)
                end
      end
  end.

(** The default collate function: the three fields stacked. *)
Definition collate (xs : list Example) : Batch :=
  (map (fun x => fst (fst x)) xs, map (fun x => snd (fst x)) xs, map snd xs).

Fixpoint load_batches (ds : list Example) (chunks : list (list nat))
  : result (list Batch) :=
  match chunks with
  | [] => Ok []
  | c :: rest =>
      match fetch ds c with
      | Raise e => Raise e
      | Ok xs => match load_batches ds rest with
                 | Raise e => Raise e
                 | Ok bs => Ok (collate xs :: bs)
                 end
      end
  end.

(** [for batch in dataloader]: the batches of one pass over the loader. *)
Definition iter_dataloader (dl : DataLoader) : M (list Batch) :=
  idx <- sampler_indices (sampler dl) (length (dataset dl)) ;;
  lift (load_batches (dataset dl) (batch_sampler (batch_size dl) idx [])).

(** [len(dataloader)]: the number of batches, the last one possibly short. *)
Definition len_dataloader (dl : DataLoader) : nat :=
  ((length (dataset dl) + batch_size dl - 1) / batch_size dl)%nat.

(** Lines 99-101 and 156-158: both loaders use a random sampler and batches
    of 32. *)
Definition train_dataloader (train_dataset : list Example) : DataLoader :=
  let train_sampler := RandomSampler in
  mkDataLoader train_dataset train_sampler 32.

Definition test_dataloader (test_dataset : list Example) : DataLoader :=
  let test_sampler := RandomSampler in
  mkDataLoader test_dataset test_sampler 32.

End Data.

(** ** [sklearn.metrics] as the script uses it *)

Module Sklearn.

Fixpoint insert_uniq (x : Z) (l : list Z) : list Z :=
  match l with
  | [] => [x]
  | y :: l' => if (x <? y)%Z then x :: l
               else if (x =? y)%Z then l
               else y :: insert_uniq x l'
  end.

(** [unique_labels(y_true, y_pred)]: the distinct values, ascending. *)
Definition unique_labels (y_true y_pred : list Z) : list Z :=
  fold_right insert_uniq [] (y_true ++ y_pred).

(** Both arrays must have one entry per sample. *)
Definition check_targets (y_true y_pred : list Z) : result unit :=
  if (length y_true =? length y_pred)%nat then Ok tt else Raise ValueError.

(** Samples whose true label is [a] and predicted label is [b]. *)
Definition count_pairs (y_true y_pred : list Z) (a b : Z) : nat :=
  length (filter (fun p => (fst p =? a)%Z && (snd p =? b)%Z) (combine y_true y_pred)).

Definition count_label (y : list Z) (a : Z) : nat :=
  length (filter (fun v => (v =? a)%Z) y).

(** [confusion_matrix(y_true, y_pred)] with [labels=None]: rows are true
    labels, columns predicted labels, both over the labels that occur. *)
Definition confusion_matrix (y_true y_pred : list Z) : result (list (list nat)) :=
  match check_targets y_true y_pred with
  | Raise e => Raise e
  | Ok _ =>
      let labels := unique_labels y_true y_pred in
      Ok (map (fun a => map (fun b => count_pairs y_true y_pred a b) labels) labels)
  end.

(** [classification_report(y_true, y_pred, target_names=target_names)] with
    [labels=None], as current scikit-learn behaves: when the number of labels
    that occur differs from the number of names it raises ValueError
    ("Number of classes, .., does not match size of target_names, ..").  The
    printed precision, recall and F1 are quotients of the counts kept in
    each row. *)
Definition classification_report (y_true y_pred : list Z) (target_names : list string)
  : result (list ReportRow) :=
  match check_targets y_true y_pred with
  | Raise e => Raise e
  | Ok _ =>
      let labels := unique_labels y_true y_pred in
      if negb (length labels =? length target_names)%nat then Raise ValueError
      else Ok (map (fun ln => mkRow (snd ln) (fst ln)
                                    (count_pairs y_true y_pred (fst ln) (fst ln))
                                    (count_label y_pred (fst ln))
                                    (count_label y_true (fst ln)))
                   (combine labels target_names))
  end.

End Sklearn.

(** ** The Evaluation Procedure (train1.py, lines 111-131) *)

Section Evaluate.
Context {B : Backend}.

(** Line 127. *)
Definition target_names : list string :=
  ["婚恋交友"; "假冒身份"; "钓鱼网站"; "冒充公检法"; "平台诈骗";
   "招聘兼职"; "杀猪盘"; "博彩赌博"; "信贷理财"; "刷单诈骗"].

(** The body of [for input_ids, attention_masks, labels in dataloader:]
    under [torch.no_grad()]. *)
Fixpoint evaluate_loop (batches : list Batch) (y_true y_pred : list Z)
  : M (list Z * list Z) :=
  match batches with
  | [] => ret (y_true, y_pred)
  | (input_ids, attention_masks, labels) :: rest =>
      log (EvForward false) ;;;
      outputs <- forward input_ids attention_masks ;;
      predicted <- lift (argmax_dim1 outputs) ;;
      evaluate_loop rest (y_true ++ labels) (y_pred ++ predicted)
  end.

(** Lines 113-125 of [evaluate(model, dataloader)]: the model is put in
    evaluation mode and the true and predicted labels of the whole stream are
    collected.  [dataloader] is [None] when [train] passes on its default
    [val_dataloader]; iterating [None] is a TypeError. *)
Definition evaluate_collect (dataloader : option DataLoader) : M (list Z * list Z) :=
  log EvModelEval ;;;
  set_training false ;;;
  let y_true := [] in
  let y_pred := [] in
  batches <- match dataloader with
             | Some dl => iter_dataloader dl
             | None => lift (Raise TypeError)
             end ;;
  evaluate_loop batches y_true y_pred.

(** Lines 127-131: the report and the confusion matrix are printed. *)
Definition evaluate_report (y_true y_pred : list Z) : M unit :=
  print (OutLine "Classification Report:") ;;;
  report <- lift (Sklearn.classification_report y_true y_pred target_names) ;;
  print (OutReport report) ;;;
  print (OutLine "Confusion Matrix:") ;;;
  cm <- lift (Sklearn.confusion_matrix y_true y_pred) ;;
  print (OutMatrix cm).

(** [evaluate(model, dataloader)].  The function has no [return] statement:
    its value is [None]. *)
Definition evaluate (dataloader : option DataLoader) : M pyobj :=
  '(y_true, y_pred) <- evaluate_collect dataloader ;;
  evaluate_report y_true y_pred ;;;
  ret PyNone.

End Evaluate.

(** ** The Training Loop (train1.py, lines 24-54) *)

Section Train.
Context {B : Backend}.

Record Optimizer : Type := mkOptimizer {
  lr : Q;
  opt_state : OptState
}.

(** 5e-5 *)
Definition learning_rate : Q := 5 # 100000.

Definition zero_grad : M unit :=
  log EvZeroGrad ;;; set_grad None.

(** [loss.backward()]: the gradient is added to what [.grad] holds. *)
Definition backward (t : Tape Rng) : M unit :=
  log EvBackward ;;;
  (fun w =>
     let g := autograd (params w) t in
     set_grad (match grad w with
               | None => Some g
               | Some g0 => Some (grad_add g0 g)
               end) w).

(** [optimizer.step()]: parameters without a gradient are left alone. *)
Definition optimizer_step (opt : Optimizer) : M Optimizer :=
  log (EvStep (lr opt)) ;;;
  (fun w =>
     match grad w with
     | None => (w, Ok opt)
     | Some g =>
         let (st, p) := AdamW_update (opt_state opt) (params w) g in
         (set_params p ;;; ret (mkOptimizer (lr opt) st)) w
     end).

(** [a, b = v] *)
Definition unpack2 (v : pyobj) : result (pyobj * pyobj) :=
  match v with
  | PyTuple2 a b => Ok (a, b)
  | _ => Raise TypeError
  end.

(** A value given to a [{:.3f}] field. *)
Definition format_float (v : pyobj) : result R :=
  match v with
  | PyFloat r => Ok r
  | _ => Raise TypeError
  end.

(** [x / len(train_dataloader)] *)
Definition truediv (x : R) (n : nat) : result R :=
  match n with
  | O => Raise ZeroDivisionError
  | S _ => Ok (rdiv x n)
  end.

(** The body of [for batch in train_dataloader:]. *)
Fixpoint train_batches (opt : Optimizer) (batches : list Batch)
    (train_loss train_f1 : R) : M (Optimizer * R * R) :=
  match batches with
  | [] => ret (opt, train_loss, train_f1)
  | (input_ids, attention_mask, labels) :: rest =>
      zero_grad ;;;
      g0 <- (fun w => (w, Ok (rng w))) ;;
      log (EvForward true) ;;;
      logits <- forward input_ids attention_mask ;;
      log EvLoss ;;;
      loss <- lift (cross_entropy logits labels) ;;
      backward (mkTape input_ids attention_mask labels g0) ;;;
      opt <- optimizer_step opt ;;
      let train_loss := radd train_loss loss in
      predicted <- lift (argmax_dim1 logits) ;;
      let train_f1 := radd train_f1 (f1_weighted labels predicted) in
      train_batches opt rest train_loss train_f1
  end.

(** Lines 47-49: the [if evaluation:] branch at the end of an epoch. *)
Definition validation_branch (train_dl : DataLoader) (val_dataloader : option DataLoader)
    (epoch epochs : Z) (train_loss train_f1 : R) : M unit :=
  v <- evaluate val_dataloader ;;
  '(val_loss, val_f1) <- lift (unpack2 v) ;;
  tl <- lift (truediv train_loss (len_dataloader train_dl)) ;;
  tf <- lift (truediv train_f1 (len_dataloader train_dl)) ;;
  vl <- lift (format_float val_loss) ;;
  vf <- lift (format_float val_f1) ;;
  print (OutEpoch (epoch + 1) epochs tl tf (Some (vl, vf))).

(** Lines 51-52: the [else:] branch. *)
Definition plain_branch (train_dl : DataLoader)
    (epoch epochs : Z) (train_loss train_f1 : R) : M unit :=
  tl <- lift (truediv train_loss (len_dataloader train_dl)) ;;
  tf <- lift (truediv train_f1 (len_dataloader train_dl)) ;;
  print (OutEpoch (epoch + 1) epochs tl tf None).

(** The body of [for epoch in range(epochs):], over the epochs still to run. *)
Fixpoint train_epochs (opt : Optimizer) (train_dl : DataLoader)
    (val_dataloader : option DataLoader) (epochs : Z) (evaluation : bool)
    (range : list Z) : M unit :=
  match range with
  | [] => ret tt
  | epoch :: range' =>
      let train_loss := r0 in
      let train_f1 := r0 in
      log EvModelTrain ;;;
      set_training true ;;;
      batches <- iter_dataloader train_dl ;;
      '(opt, train_loss, train_f1) <- train_batches opt batches train_loss train_f1 ;;
      (if evaluation
       then validation_branch train_dl val_dataloader epoch epochs train_loss train_f1
       else plain_branch train_dl epoch epochs train_loss train_f1) ;;;
      train_epochs opt train_dl val_dataloader epochs evaluation range'
  end.

(** [range(n)] *)
Definition py_range (n : Z) : list Z := map Z.of_nat (seq 0 (Z.to_nat n)).

(** [train(model, train_dataloader, val_dataloader, epochs, evaluation)]; the
    returned model is the one the world holds. *)
Definition train (train_dl : DataLoader) (val_dataloader : option DataLoader)
    (epochs : Z) (evaluation : bool) : M unit :=
  optimizer <- (fun w => (w, Ok (mkOptimizer learning_rate
                                    (AdamW_init (params w) learning_rate)))) ;;
  train_epochs optimizer train_dl val_dataloader epochs evaluation (py_range epochs).

(** The parameter updates a run has made: its [optimizer.step()] calls. *)
Definition is_step (e : Event) : bool :=
  match e with EvStep _ => true | _ => false end.

Definition update_count (tr : list Event) : nat := length (filter is_step tr).

End Train.

(** ** A small executable backend

    Integers for scalars, a counter for the generator, an encoder that
    repeats each token id over the hidden dimension, an LSTM whose final
    states are the first and the last step's first feature, and an optimizer
    that shifts the head's bias.  It satisfies [BackendLaws] and is what the
    concrete runs below execute on. *)

Module Stub.

Definition stub_bert_forward (w : nat) (ids mask : list (list Z))
  : result (list (list (list Z))) :=
  Ok (map (fun row => map (fun tok => repeat tok w) row) ids).

Definition stub_lstm_forward (w : nat * nat) (x : list (list (list Z)))
  : result (list (list (list Z)) * (list (list (list Z)) * list (list (list Z)))) :=
  let h_n := [map (fun sq => repeat (hd 0 (hd [] sq)) (snd w)) x;
              map (fun sq => repeat (hd 0 (last sq [])) (snd w)) x] in
  Ok (x, (h_n, h_n)).

Definition stub_update (st : nat) (p : Params Z nat (nat * nat)) (g : unit)
  : nat * Params Z nat (nat * nat) :=
  let c := classifier p in
  (S st, mkParams (bert p) (lstm p)
                  (mkLinear (in_features c) (out_features c) (weight c)
                            (map (Z.add 1) (bias c)))).

#[export] Instance backend : Backend := {|
  R := Z;
  r0 := 0;
  radd := Z.add;
  rmul := Z.mul;
  rltb := Z.ltb;
  rdiv := fun x n => x / Z.of_nat n;
  Rng := nat;
  rand_uniform := fun g => (Z.of_nat ((g * g + g / 6) mod 5) - 2, S g);
  bernoulli_keep := fun g => (Nat.even g, S g);
  dropout_scale := fun x => x;
  randperm := fun g n => (rev (seq 0 n), S g);
  BertW := nat;
  from_pretrained := fun _ => 2%nat;
  bert_hidden_size := fun w => w;
  bert_forward := stub_bert_forward;
  LstmW := (nat * nat)%type;
  nn_LSTM := fun i h g => ((i, h), S g);
  lstm_forward := stub_lstm_forward;
  cross_entropy := fun logits labels => Ok (Z.of_nat (length labels));
  f1_weighted := fun y_true y_pred => 0;
  Grad := unit;
  grad_add := fun _ _ => tt;
  autograd := fun _ _ => tt;
  OptState := nat;
  AdamW_init := fun _ _ => O;
  AdamW_update := stub_update
|}.

(** A model of 10 classes with 3 hidden units per direction, and the world a
    run starts from. *)
Definition model0 : Params Z nat (nat * nat) :=
  fst (BERTBiLSTM_init "bert-base-chinese" 10 768 3 (0%nat : Rng)).

Definition world0 : World := mkWorld model0 None true (7%nat : Rng) [] [].

(** Ten encoded examples of length 2, one per class, and two of them. *)
Definition examples10 : list Example :=
  map (fun k => ([k; k + 1], [1; 1], k)) [0; 1; 2; 3; 4; 5; 6; 7; 8; 9].

Definition examples2 : list Example := [([5; 6], [1; 1], 0); ([7; 8], [1; 1], 1)].

(** The model as line 105 builds it, in evaluation mode. *)
Definition script_world : World :=
  mkWorld (fst (BERTBiLSTM_init "bert-base-chinese" 10 768 256 (0%nat : Rng)))
          None false (3%nat : Rng) [] [].

(** Loaders over the ten examples, in batches of 4. *)
Definition sequential_loader : DataLoader := mkDataLoader examples10 SequentialSampler 4.
Definition random_loader : DataLoader := mkDataLoader examples10 RandomSampler 4.

End Stub.

(** ** Sample input files *)

Module Samples.
Import Ingest.

(** The code points of an ASCII literal. *)
Definition str (s : string) : pystr := map N_of_ascii (list_ascii_of_string s).

(** An interpreter for the runs below, with an excerpt of the Unicode
    tables (the blanks U+0085, U+00A0 and U+3000, the Arabic-Indic and the
    fullwidth digits) and the default cap of 4300 digits. *)
Definition cpython : Interpreter := {|
  unicode_isspace := fun ch => existsb (N.eqb ch) [133; 160; 12288]%N;
  unicode_todecimal := fun ch =>
    if ((65296 <=? ch) && (ch <=? 65305))%N then Some (ch - 65296)%N
    else if ((1632 <=? ch) && (ch <=? 1641))%N then Some (ch - 1632)%N
    else None;
  max_str_digits := 4300
|}.

(** One line of a file: the text, a tab, the rest, a newline. *)
Definition line (text rest : pystr) : pystr :=
  text ++ tab :: rest ++ [newline].

(** The three files of a small run; one line carries a third field, and the
    first label of test.txt is written with fullwidth digits. *)
Definition sample_fs : filesystem := fun name =>
  if String.eqb name "./myBERT/train.txt"
  then Some (line (str "win a prize") (str "3")
               ++ line (str "your account is frozen") (str "11" ++ tab :: str "extra"))
  else if String.eqb name "./myBERT/dev.txt"
  then Some (line (str "part-time job") (str " 7"))
  else if String.eqb name "./myBERT/test.txt"
  then Some (line (str "loan offer") [65297; 65296]%N
               ++ str "no newline at the end" ++ tab :: str "2")
  else if String.eqb name "bad.txt"
  then Some (line (str "good") (str "4")
               ++ str "no label here" ++ newline :: line (str "later") (str "5"))
  else None.

(** Files whose raw labels do not start at 2. *)
Definition low_fs : filesystem := fun name =>
  if String.eqb name "./myBERT/train.txt" then Some (line (str "greeting") (str "1"))
  else Some [].

End Samples.

(** ** Vocabulary of the properties *)

Section Vocabulary.
Context {B : Backend}.

(** [m] leaves the observation [f] of the world as it was, whether it
    returns or raises. *)
Definition preserves {X A} (f : World -> X) (m : M A) : Prop :=
  forall w, f (fst (m w)) = f w.

(** The optimizer steps a world has seen. *)
Definition steps (w : World) : nat := update_count (trace w).

(** Two worlds hold the same model, both in evaluation mode. *)
Definition same_frozen_model (w1 w2 : World) : Prop :=
  params w1 = params w2 /\ training w1 = false /\ training w2 = false.

(** Run from two such worlds, [m] gives the same result, prints the same,
    and leaves two such worlds. *)
Definition agrees {A} (m : M A) (w1 w2 : World) : Prop :=
  snd (m w1) = snd (m w2)
  /\ same_frozen_model (fst (m w1)) (fst (m w2))
  /\ exists out, stdout (fst (m w1)) = stdout w1 ++ out
                 /\ stdout (fst (m w2)) = stdout w2 ++ out.

Definition deterministic {A} (m : M A) : Prop :=
  forall w1 w2, same_frozen_model w1 w2 -> agrees m w1 w2.

(** The examples a collated batch holds, in order. *)
Definition examples_of (b : Batch) : list Example :=
  combine (combine (fst (fst b)) (snd (fst b))) (snd b).

(** The prediction [evaluate] makes for a batch with the model of [w]. *)
Definition predicts (w : World) (b : Batch) (predicted : list Z) : Prop :=
  exists logits, snd (forward (fst (fst b)) (snd (fst b)) w) = Ok logits
                 /\ argmax_dim1 logits = Ok predicted.

(** The world right after [model.eval()]. *)
Definition eval_world (w : World) : World :=
  mkWorld (params w) (grad w) false (rng w) (stdout w) (trace w ++ [EvModelEval]).

(** [m] makes at most [n] optimizer steps, whether it returns or raises. *)
Definition adds_at_most {A} (n : nat) (m : M A) : Prop :=
  forall w, (steps (fst (m w)) <= steps w + n)%nat.

(** When [m] returns, it has logged exactly [l] and its value satisfies [P]. *)
Definition emits {A} (P : A -> Prop) (l : list Event) (m : M A) : Prop :=
  forall w w' a, m w = (w', Ok a) -> trace w' = trace w ++ l /\ P a.

Definition any {A} : A -> Prop := fun _ => True.

(** The calls of one training batch. *)
Definition batch_events (rate : Q) : list Event :=
  [EvZeroGrad; EvForward true; EvLoss; EvBackward; EvStep rate].

(** The calls of one epoch over [n] batches. *)
Definition epoch_events (rate : Q) (n : nat) : list Event :=
  EvModelTrain :: concat (repeat (batch_events rate) n).

(** [m] never returns. *)
Definition never_returns {A} (m : M A) : Prop := forall w, is_ok (snd (m w)) = false.

End Vocabulary.

(** ** Vocabulary of the further properties *)

Section Triples.
Context {B : Backend}.

(** From a world satisfying [P], a run of [m] that returns leaves a world
    satisfying [Q]. *)
Definition triple {A} (P : World -> Prop) (m : M A) (Q : World -> Prop) : Prop :=
  forall w w' a, P w -> m w = (w', Ok a) -> Q w'.

(** The epoch number, the number of epochs and whether validation figures
    are shown, for a line printed at the end of an epoch. *)
Definition epoch_header (o : Output) : option (Z * Z * bool) :=
  match o with
  | OutEpoch epoch epochs _ _ val =>
      Some (epoch, epochs, match val with Some _ => true | None => false end)
  | _ => None
  end.

End Triples.

Module MoreSamples.
Import Ingest.

(** A file whose second line has a tab but no integer after it. *)
Definition bad_label_fs : filesystem := fun name =>
  if String.eqb name "labels.txt"
  then Some (Samples.line (Samples.str "first") (Samples.str "2")
               ++ Samples.line (Samples.str "second") (Samples.str "two")
               ++ Samples.line (Samples.str "third") (Samples.str "3"))
  else None.

End MoreSamples.

Module MoreStub.
Import Stub.

(** The small model in evaluation mode, as [evaluate] leaves it. *)
Definition script_eval_start : World :=
  mkWorld model0 None false (7%nat : Rng) [] [].

End MoreStub.

(** ** The script's data pipeline (train1.py, lines 72-101 and 134-158) *)

(** How a step of the module-level code ends: with a value, with one of
    the exceptions above, or with the AssertionError of [TensorDataset]
    ("Size mismatch between tensors"). *)
Inductive outcome (A : Type) : Type :=
| Done (a : A)
| Raised (e : exn)
| AssertionError.
Arguments Done {A} a.
Arguments Raised {A} e.
Arguments AssertionError {A}.

(** The exceptions of two library failures differ between releases of
    torch; they are taken from the library: what [torch.cat] raises on an
    empty list and what [torch.tensor] raises on an integer that does not fit
    a 64-bit tensor entry. *)
Record Torch : Type := {
  cat_empty_error : exn;
  overflow_error : exn
}.

Section Script.
Variable torch : Torch.

(** [tokenizer.encode_plus(text, add_special_tokens=True, max_length=128,
    pad_to_max_length=True, return_attention_mask=True,
    return_tensors='pt')]: the [input_ids] and the [attention_mask] tensors
    of the returned dictionary. *)
Variable encode_plus : Ingest.pystr -> list (list Z) * list (list Z).

(** [torch.cat(tensors, dim=0)] of matrices: an empty list is an error, and
    so are rows of different widths. *)
Definition torch_cat0 (tensors : list (list (list Z))) : result (list (list Z)) :=
  match tensors with
  | [] => Raise (cat_empty_error torch)
  | _ :: _ =>
      let rows := concat tensors in
      match rows with
      | [] => Ok []
      | r0 :: _ =>
          if forallb (fun r => (length r =? length r0)%nat) rows
          then Ok rows else Raise RuntimeError
      end
  end.

(** Lines 87-95 (and 140-148): every text is encoded, then the two lists of
    tensors are concatenated. *)
Definition encode_texts (texts : list Ingest.pystr)
  : result (list (list Z) * list (list Z)) :=
  let input_ids := map (fun text => fst (encode_plus text)) texts in
  let attention_masks := map (fun text => snd (encode_plus text)) texts in
  match torch_cat0 input_ids with
  | Raise e => Raise e
  | Ok input_ids =>
      match torch_cat0 attention_masks with
      | Raise e => Raise e
      | Ok attention_masks => Ok (input_ids, attention_masks)
      end
  end.

(** An entry of a tensor of 64-bit integers. *)
Definition fits_int64 (v : Z) : bool :=
  ((- 2 ^ 63 <=? v) && (v <? 2 ^ 63))%Z.

(** [torch.tensor(labels)] of a list of Python integers (lines 96 and 151):
    a 64-bit integer tensor; an integer out of its range is an error. *)
Definition torch_tensor (labels : list Z) : result (list Z) :=
  if forallb fits_int64 labels then Ok labels else Raise (overflow_error torch).

(** [TensorDataset(input_ids, attention_masks, labels)]: the tensors must
    have the same first dimension; item [i] is the triple of their rows. *)
Definition TensorDataset (input_ids attention_masks : list (list Z)) (labels : list Z)
  : outcome (list Example) :=
  if (length input_ids =? length attention_masks)%nat
     && (length input_ids =? length labels)%nat
  then Done (combine (combine input_ids attention_masks) labels)
  else AssertionError.

(** From the texts and labels of a split to its dataset: the texts are
    encoded and concatenated, the labels made a tensor, the dataset built. *)
Definition build_dataset (loaded : result (list Ingest.pystr * list Z))
  : outcome (list Example) :=
  match loaded with
  | Raise e => Raised e
  | Ok (texts, labels) =>
      match encode_texts texts with
      | Raise e => Raised e
      | Ok (input_ids, attention_masks) =>
          match torch_tensor labels with
          | Raise e => Raised e
          | Ok labels => TensorDataset input_ids attention_masks labels
          end
      end
  end.

(** Lines 72-101: the training loader, over train.txt and dev.txt. *)
Definition script_train_dataloader (py : Ingest.Interpreter) (fs : Ingest.filesystem)
  : outcome DataLoader :=
  match build_dataset (Ingest.load_train py fs) with
  | Done train_dataset => Done (train_dataloader train_dataset)
  | Raised e => Raised e
  | AssertionError => AssertionError
  end.

(** Lines 134-158: the test loader, over test.txt. *)
Definition script_test_dataloader (py : Ingest.Interpreter) (fs : Ingest.filesystem)
  : outcome DataLoader :=
  match build_dataset (Ingest.load_test py fs) with
  | Done test_dataset => Done (test_dataloader test_dataset)
  | Raised e => Raised e
  | AssertionError => AssertionError
  end.

(** What the script relies on from the tokenizer: one row of 128 ids and
    one row of 128 mask entries per text. *)
Definition pads_to_128 : Prop :=
  forall text, shape2 (fst (encode_plus text)) 1 128
               /\ shape2 (snd (encode_plus text)) 1 128.

(** The encoded example of a text with its raw label. *)
Definition encoded_example (text : Ingest.pystr) (raw : Z) : Example :=
  (hd [] (fst (encode_plus text)), hd [] (snd (encode_plus text)), raw - 2).

End Script.

Module StubTokenizer.

(** The exceptions of a recent torch. *)
Definition torch : Torch := {|
  cat_empty_error := ValueError;
  overflow_error := RuntimeError
|}.

(** A tokenizer that writes the text's length, then pads with zeros. *)
Definition encode_plus (text : Ingest.pystr) : list (list Z) * list (list Z) :=
  ([Z.of_nat (length text) :: repeat 0 127], [1 :: repeat 0 127]).

(** The training loader of the sample files, and the batches of one pass
    over it from [Stub.world0]. *)
Definition sample_loader : DataLoader :=
  Eval vm_compute in
    match script_train_dataloader torch encode_plus Samples.cpython Samples.sample_fs with
    | Done dl => dl
    | _ => mkDataLoader [] RandomSampler 32
    end.

Definition sample_batches : list Batch :=
  Eval vm_compute in
    match snd (iter_dataloader sample_loader Stub.world0) with
    | Ok batches => batches
    | Raise _ => []
    end.

End StubTokenizer.

(** * Properties *)

(** ** Ingestion *)

Module IngestFacts.
Import Ingest.

#[local] Arguments N.eqb : simpl never.

Lemma has_tab_cons c s :
  has_tab (c :: s) = N.eqb c tab || has_tab s.
Proof.
  unfold has_tab. simpl. now rewrite (N.eqb_sym tab c).
Qed.

(** [split] cuts a line into what precedes its first tab and, when there is a
    tab, the fields of what follows. *)
Lemma split_first_tab s :
  split tab s =
  before_first_tab s :: (if has_tab s then split tab (after_first_tab s) else []).
Proof.
  induction s as [|c s IH].
  - reflexivity.
  - rewrite has_tab_cons. simpl. destruct (N.eqb c tab); simpl.
    + reflexivity.
    + now rewrite IH.
Qed.

Lemma split_field0 line : getitem (split tab line) 0 = Ok (before_first_tab line).
Proof. now rewrite split_first_tab. Qed.

Lemma split_field1 line :
  getitem (split tab line) 1 =
  if has_tab line then Ok (second_field line) else Raise IndexError.
Proof.
  rewrite split_first_tab. destruct (has_tab line).
  - unfold second_field. now rewrite (split_first_tab (after_first_tab line)).
  - reflexivity.
Qed.

Section WithInterpreter.
Variable py : Interpreter.

(** One turn of the loop, by cases on the line. *)
Lemma lines_loop_step line rest text label :
  lines_loop py (line :: rest) text label =
  if has_tab line then
    match pyint py (second_field line) with
    | Ok n => lines_loop py rest (text ++ [before_first_tab line]) (label ++ [n])
    | Raise e => Raise e
    end
  else Raise IndexError.
Proof.
  cbn [lines_loop]. rewrite split_field0, split_field1.
  now destruct (has_tab line).
Qed.

Lemma lines_loop_well_formed lines : forall text label,
  forallb (well_formed_line py) lines = true ->
  exists ns,
    lines_loop py lines text label
      = Ok (text ++ map before_first_tab lines, label ++ ns)
    /\ map Ok ns = map (fun line => pyint py (second_field line)) lines.
Proof.
  induction lines as [|line rest IH]; intros text label Hwf.
  - exists []. simpl. now rewrite !app_nil_r.
  - simpl in Hwf. apply andb_true_iff in Hwf as [Hline Hrest].
    unfold well_formed_line in Hline. apply andb_true_iff in Hline as [Htab Hint].
    rewrite lines_loop_step, Htab.
    destruct (pyint py (second_field line)) as [n|e] eqn:En; [|discriminate].
    destruct (IH (text ++ [before_first_tab line]) (label ++ [n]) Hrest)
      as (ns & Hrun & Hns).
    exists (n :: ns). split.
    + rewrite Hrun. simpl. now rewrite <- !app_assoc.
    + simpl. now rewrite En, Hns.
Qed.

(** A line without a tab stops the loop, whatever comes before or after. *)
Lemma lines_loop_missing_tab pre line post : forall text label,
  has_tab line = false ->
  (exists e, lines_loop py (pre ++ line :: post) text label = Raise e)
  /\ (forallb (well_formed_line py) pre = true ->
      lines_loop py (pre ++ line :: post) text label = Raise IndexError).
Proof.
  induction pre as [|l pre IH]; intros text label Hno.
  - simpl app. rewrite lines_loop_step, Hno. split; [now exists IndexError | auto].
  - simpl app. rewrite lines_loop_step.
    destruct (has_tab l) eqn:Hl.
    + destruct (pyint py (second_field l)) as [n|e] eqn:En.
      * destruct (IH (text ++ [before_first_tab l]) (label ++ [n]) Hno) as [H1 H2].
        split; [exact H1|]. intros Hwf. simpl in Hwf.
        apply andb_true_iff in Hwf as [_ Hwf]. auto.
      * split; [now exists e|]. intros Hwf. simpl in Hwf.
        unfold well_formed_line in Hwf. rewrite Hl, En in Hwf. discriminate.
    + split; [now exists IndexError | auto].
Qed.

End WithInterpreter.

Lemma before_first_tab_app t rest :
  has_tab t = false ->
  before_first_tab (t ++ tab :: rest) = t
  /\ after_first_tab (t ++ tab :: rest) = rest.
Proof.
  induction t as [|c t IH]; intros Hno.
  - split; reflexivity.
  - rewrite has_tab_cons in Hno. apply orb_false_iff in Hno as [Hc Ht].
    simpl. rewrite Hc. destruct (IH Ht) as [-> ->]. auto.
Qed.

Lemma before_first_tab_no_tab t : has_tab t = false -> before_first_tab t = t.
Proof.
  induction t as [|c t IH]; intros Hno; [reflexivity|].
  rewrite has_tab_cons in Hno. apply orb_false_iff in Hno as [Hc Ht].
  simpl. now rewrite Hc, IH.
Qed.

Lemma normalize_labels_inverse raw :
  map (fun n => n + 2) (normalize_labels raw) = raw.
Proof.
  unfold normalize_labels. rewrite map_map.
  rewrite <- (map_id raw) at 2. apply map_ext. intros; lia.
Qed.

Lemma normalize_labels_range raw :
  Forall (fun n => 0 <= n < 10) (normalize_labels raw)
  <-> Forall (fun r => 2 <= r < 12) raw.
Proof.
  unfold normalize_labels. rewrite Forall_map.
  split; apply Forall_impl; intros; lia.
Qed.

End IngestFacts.

Import Ingest IngestFacts.

(** [int()] on three label fields: the unit separator U+001F is no blank for
    it, fullwidth digits are digits, and a no-break space is a blank. *)
Example pyint_on_samples :
  pyint Samples.cpython [55; 31; 10]%N = Raise ValueError
  /\ pyint Samples.cpython [65299]%N = Ok 3
  /\ pyint Samples.cpython [160; 45; 49; 95; 50; 10]%N = Ok (-12).
Proof. repeat split. Qed.

(** The cap on digits: 4301 digits are refused under the default cap of
    4300 and read when the cap is off; 640 digits or fewer are never
    refused, however low the cap. *)
Example pyint_digit_cap :
  pyint Samples.cpython (repeat 49%N 4301) = Raise ValueError
  /\ is_ok (pyint {| unicode_isspace := fun _ => false;
                     unicode_todecimal := fun _ => None;
                     max_str_digits := 0 |} (repeat 49%N 4301)) = true
  /\ is_ok (pyint {| unicode_isspace := fun _ => false;
                     unicode_todecimal := fun _ => None;
                     max_str_digits := 1 |} (repeat 49%N 640)) = true.
Proof. repeat split; vm_compute; reflexivity. Qed.

(** Two files run through [convert_to_text_label]: a label followed by a
    unit separator is refused on line 1, before the line without a tab is
    reached; a label written as a fullwidth digit is read. *)
Example convert_to_text_label_on_samples :
  convert_to_text_label Samples.cpython
    (fun _ => Some ([97; 9; 55; 31; 10]%N ++ Samples.str "no label" ++ [newline])) "f"
    = Raise ValueError
  /\ convert_to_text_label Samples.cpython
       (fun _ => Some [97; 9; 65299; 10]%N) "f"
    = Ok ([[97%N]], [3]).
Proof. split; reflexivity. Qed.

(** C7. A line without a tab-separated label field is fatal: whenever some
    line of the file has no tab, [convert_to_text_label] raises and returns
    no lists, whatever follows that line; and when every earlier line is
    accepted, the exception is the IndexError of [split_cnt[1]] on that very
    line.  Nothing is skipped or repaired. *)
Theorem convert_to_text_label_missing_tab
    (py : Interpreter) (fs : filesystem) (filename : string) (content : pystr)
    (pre : list pystr) (line : pystr) (post : list pystr) :
  fs filename = Some content ->
  readlines content = pre ++ line :: post ->
  has_tab line = false ->
  (exists e, convert_to_text_label py fs filename = Raise e)
  /\ (forallb (well_formed_line py) pre = true ->
      convert_to_text_label py fs filename = Raise IndexError).
Proof.
  intros Hfile Hlines Hno. unfold convert_to_text_label.
  rewrite Hfile, Hlines. now apply lines_loop_missing_tab.
Qed.

Lemma convert_to_text_label_missing_tab_witness :
  convert_to_text_label Samples.cpython Samples.sample_fs "bad.txt" = Raise IndexError.
Proof.
  refine (proj2 (convert_to_text_label_missing_tab Samples.cpython Samples.sample_fs
                   "bad.txt" _
                   [Samples.line (Samples.str "good") (Samples.str "4")]
                   (Samples.str "no label here" ++ [newline])
                   [Samples.line (Samples.str "later") (Samples.str "5")]
                   eq_refl eq_refl eq_refl) eq_refl).
Defined.

(** C10. On a file all of whose lines are well formed, ingestion returns two
    lists of the same length, one entry per line and in file order: the text
    of a line is exactly what precedes its first tab, its label is the
    integer read from what lies between the first tab and the second (or the
    end of the line).  Hence whatever follows a second tab is ignored. *)
Theorem convert_to_text_label_pairs
    (py : Interpreter) (fs : filesystem) (filename : string) (content : pystr) :
  fs filename = Some content ->
  forallb (well_formed_line py) (readlines content) = true ->
  exists text label,
    convert_to_text_label py fs filename = Ok (text, label)
    /\ length text = length label
    /\ length text = length (readlines content)
    /\ text = map before_first_tab (readlines content)
    /\ map Ok label = map (fun l => pyint py (second_field l)) (readlines content)
    /\ (forall t f extra, has_tab t = false -> has_tab f = false ->
        let l := t ++ tab :: (f ++ tab :: extra) in
        before_first_tab l = t /\ second_field l = f).
Proof.
  intros Hfile Hwf. unfold convert_to_text_label. rewrite Hfile.
  destruct (lines_loop_well_formed py (readlines content) [] [] Hwf)
    as (ns & Hrun & Hns).
  exists (map before_first_tab (readlines content)), ns.
  simpl in Hrun. rewrite Hrun.
  assert (Hlen : length ns = length (readlines content)).
  { rewrite <- (length_map Ok ns), Hns. apply length_map. }
  repeat split; auto.
  - now rewrite length_map.
  - now rewrite length_map.
  - cbv zeta. now destruct (before_first_tab_app t (f ++ tab :: extra) H).
  - cbv zeta. unfold second_field.
    destruct (before_first_tab_app t (f ++ tab :: extra) H) as [_ ->].
    now destruct (before_first_tab_app f extra H0).
Qed.

Lemma convert_to_text_label_pairs_witness :
  exists text label,
    convert_to_text_label Samples.cpython Samples.sample_fs "./myBERT/train.txt"
      = Ok (text, label)
    /\ length text = length label
    /\ length text = 2%nat
    /\ text = [Samples.str "win a prize"; Samples.str "your account is frozen"]
    /\ map Ok label = [Ok 3; Ok 11].
Proof.
  destruct (convert_to_text_label_pairs Samples.cpython Samples.sample_fs
              "./myBERT/train.txt" _ eq_refl eq_refl)
    as (text & label & H1 & H2 & H3 & H4 & H5 & _).
  exists text, label. repeat split; assumption.
Defined.

(** C3, as the claim states it, fails: the offset is applied without a range
    check, so a raw label below 2 (or above 11) leaves [0, 10). *)
Lemma normalized_label_outside_range :
  ~ (forall py fs texts labels,
       load_train py fs = Ok (texts, labels) ->
       Forall (fun n => 0 <= n < 10) labels).
Proof.
  intros H.
  specialize (H Samples.cpython Samples.low_fs [Samples.str "greeting"] [-1] eq_refl).
  inversion H; subst. lia.
Qed.

(** C3, amended. The labels the script keeps are the raw labels minus 2:
    the offset is applied once to the labels of train.txt and dev.txt taken
    together and once to those of test.txt; adding 2 gives the raw labels
    back; and the normalised labels lie in [0, 10) exactly when the raw ones
    lie in [2, 12). *)
Theorem label_normalization_offset
    (py : Interpreter) (fs : filesystem) (t1 t2 t3 : list pystr) (r1 r2 r3 : list Z) :
  convert_to_text_label py fs "./myBERT/train.txt" = Ok (t1, r1) ->
  convert_to_text_label py fs "./myBERT/dev.txt" = Ok (t2, r2) ->
  convert_to_text_label py fs "./myBERT/test.txt" = Ok (t3, r3) ->
  load_train py fs = Ok (t1 ++ t2, map (fun raw => raw - 2) (r1 ++ r2))
  /\ load_test py fs = Ok (t3, map (fun raw => raw - 2) r3)
  /\ (forall raw, map (fun n => n + 2) (normalize_labels raw) = raw)
  /\ (forall raw, Forall (fun n => 0 <= n < 10) (normalize_labels raw)
                  <-> Forall (fun r => 2 <= r < 12) raw).
Proof.
  intros H1 H2 H3. unfold load_train, load_test. rewrite H1, H2, H3.
  repeat split; auto using normalize_labels_inverse;
    apply normalize_labels_range.
Qed.

Lemma label_normalization_offset_witness :
  load_train Samples.cpython Samples.sample_fs
    = Ok ([Samples.str "win a prize"; Samples.str "your account is frozen";
           Samples.str "part-time job"], [1; 9; 5])
  /\ load_test Samples.cpython Samples.sample_fs
    = Ok ([Samples.str "loan offer"; Samples.str "no newline at the end"], [8; 0]).
Proof.
  destruct (label_normalization_offset Samples.cpython Samples.sample_fs _ _ _ _ _ _
              eq_refl eq_refl eq_refl) as (H1 & H2 & _).
  split; [exact H1 | exact H2].
Defined.

(** ** What a computation leaves unchanged *)

Section Frame.
Context {B : Backend} {X : Type} (f : World -> X).

Lemma preserves_ret {A} (a : A) : preserves f (ret a).
Proof. intros w; reflexivity. Qed.

Lemma preserves_lift {A} (r : result A) : preserves f (lift r).
Proof. intros w; reflexivity. Qed.

Lemma preserves_bind {A C} (m : M A) (k : A -> M C) :
  preserves f m -> (forall a, preserves f (k a)) -> preserves f (bind m k).
Proof.
  intros Hm Hk w. unfold bind. specialize (Hm w).
  destruct (m w) as [w' [a|e]]; simpl in *.
  - now rewrite Hk.
  - exact Hm.
Qed.

Lemma preserves_read {A} (g : World -> A) : preserves f (fun w => (w, Ok (g w))).
Proof. intros w; reflexivity. Qed.

End Frame.

(** Proves [preserves f m] for a primitive [m] that does not write [f]. *)
Ltac frame_prim :=
  let w := fresh "w" in
  intros w;
  unfold log, print, set_training, set_grad, set_params, with_rng, lift, ret;
  try match goal with |- context [let (_, _) := ?x in _] => destruct x end;
  reflexivity.

Section FrameFacts.
Context {B : Backend}.

Lemma preserves_dropout {X} (f : World -> X) x :
  preserves f (with_rng (dropout_rows x)) -> preserves f (dropout x).
Proof.
  intros H w. unfold dropout. destruct (training w); [apply H | reflexivity].
Qed.

(** A forward pass writes nothing but the generator. *)
Lemma forward_frame {X} (f : World -> X) ids mask :
  (forall x, preserves f (with_rng (dropout_rows x))) ->
  preserves f (forward ids mask).
Proof.
  intros Hrng. unfold forward.
  apply preserves_bind; [apply preserves_read | intros p].
  apply preserves_bind; [apply preserves_lift | intros outputs].
  apply preserves_bind; [apply preserves_lift | intros [lstm_output [h_n c_n]]].
  apply preserves_bind; [apply preserves_lift | intros fw].
  apply preserves_bind; [apply preserves_lift | intros bw].
  apply preserves_bind; [apply preserves_lift | intros pooled].
  apply preserves_bind; [now apply preserves_dropout | intros dropped].
  apply preserves_bind; [apply preserves_lift | intros logits].
  apply preserves_ret.
Qed.

Lemma rng_frame_params {A} (g : Rng -> A * Rng) : preserves params (with_rng g).
Proof. frame_prim. Qed.
Lemma rng_frame_grad {A} (g : Rng -> A * Rng) : preserves grad (with_rng g).
Proof. frame_prim. Qed.
Lemma rng_frame_training {A} (g : Rng -> A * Rng) : preserves training (with_rng g).
Proof. frame_prim. Qed.
Lemma rng_frame_stdout {A} (g : Rng -> A * Rng) : preserves stdout (with_rng g).
Proof. frame_prim. Qed.
Lemma rng_frame_trace {A} (g : Rng -> A * Rng) : preserves trace (with_rng g).
Proof. frame_prim. Qed.
Lemma rng_frame_steps {A} (g : Rng -> A * Rng) : preserves steps (with_rng g).
Proof. frame_prim. Qed.

Lemma iter_dataloader_frame {X} (f : World -> X) dl :
  (forall n, preserves f (with_rng (fun g => randperm g n))) ->
  preserves f (iter_dataloader dl).
Proof.
  intros Hrng. unfold iter_dataloader.
  apply preserves_bind; [| intros; apply preserves_lift].
  unfold sampler_indices. destruct (sampler dl); [apply Hrng | apply preserves_ret].
Qed.

End FrameFacts.

Create HintDb frame.

#[export] Hint Resolve rng_frame_params rng_frame_grad rng_frame_training
  rng_frame_stdout rng_frame_trace rng_frame_steps : frame.

Section EvaluateFrame.
Context {B : Backend}.

Lemma update_count_app (a b : list Event) :
  update_count (a ++ b) = (update_count a + update_count b)%nat.
Proof.
  unfold update_count. now rewrite filter_app, length_app.
Qed.

(** Logging a call that is not [optimizer.step()] leaves the update count. *)
Lemma log_frame_steps (e : Event) : is_step e = false -> preserves steps (log e).
Proof.
  intros He w. unfold steps, log. simpl.
  rewrite update_count_app. unfold update_count at 2. simpl. rewrite He. simpl. lia.
Qed.

Lemma print_frame_steps (o : Output) : preserves steps (print o).
Proof. frame_prim. Qed.

Lemma evaluate_loop_frame {X} (f : World -> X) :
  (forall x, preserves f (with_rng (dropout_rows x))) ->
  preserves f (log (EvForward false)) ->
  forall batches y_true y_pred, preserves f (evaluate_loop batches y_true y_pred).
Proof.
  intros Hrng Hlog batches.
  induction batches as [|[[ids mask] labels] rest IH]; intros y_true y_pred.
  - apply preserves_ret.
  - cbn [evaluate_loop].
    apply preserves_bind; [exact Hlog | intros _].
    apply preserves_bind; [now apply forward_frame | intros outputs].
    apply preserves_bind; [apply preserves_lift | intros predicted].
    apply IH.
Qed.

Lemma evaluate_report_frame {X} (f : World -> X) :
  (forall o, preserves f (print o)) ->
  forall y_true y_pred, preserves f (evaluate_report y_true y_pred).
Proof.
  intros Hprint y_true y_pred. unfold evaluate_report.
  apply preserves_bind; [apply Hprint | intros _].
  apply preserves_bind; [apply preserves_lift | intros report].
  apply preserves_bind; [apply Hprint | intros _].
  apply preserves_bind; [apply Hprint | intros _].
  apply preserves_bind; [apply preserves_lift | intros cm].
  apply Hprint.
Qed.

(** What [evaluate] writes: the mode flag, the generator (when the loader
    samples at random), standard output and the call log.  Any observation of
    the world that these writes leave alone is the same after the call. *)
Lemma evaluate_frame {X} (f : World -> X) dataloader :
  (forall A (g : Rng -> A * Rng), preserves f (with_rng g)) ->
  (forall e, is_step e = false -> preserves f (log e)) ->
  (forall o, preserves f (print o)) ->
  preserves f (set_training false) ->
  preserves f (evaluate dataloader).
Proof.
  intros Hrng Hlog Hprint Hmode. unfold evaluate, evaluate_collect.
  apply preserves_bind.
  - apply preserves_bind; [now apply Hlog | intros _].
    apply preserves_bind; [exact Hmode | intros _].
    apply preserves_bind.
    + destruct dataloader as [dl|]; [|apply preserves_lift].
      apply iter_dataloader_frame. intros; apply Hrng.
    + intros batches. apply evaluate_loop_frame; [intros; apply Hrng | now apply Hlog].
  - intros [y_true y_pred].
    apply preserves_bind; [now apply evaluate_report_frame | intros _].
    apply preserves_ret.
Qed.

Lemma evaluate_keeps_params dataloader : preserves params (evaluate dataloader).
Proof. apply evaluate_frame; intros; frame_prim. Qed.

Lemma evaluate_keeps_grad dataloader : preserves grad (evaluate dataloader).
Proof. apply evaluate_frame; intros; frame_prim. Qed.

Lemma evaluate_keeps_steps dataloader : preserves steps (evaluate dataloader).
Proof.
  apply evaluate_frame; intros; auto using log_frame_steps; frame_prim.
Qed.

(** [evaluate] starts by switching the mode; the rest runs from [eval_world]. *)
Lemma evaluate_unfold dataloader w :
  evaluate dataloader w
  = bind (bind (match dataloader with
                | Some dl => iter_dataloader dl
                | None => lift (Raise TypeError)
                end)
               (fun batches => evaluate_loop batches [] []))
         (fun yy => evaluate_report (fst yy) (snd yy) ;;; ret PyNone)
         (eval_world w).
Proof.
  unfold evaluate, evaluate_collect, bind, log, set_training, eval_world. simpl.
  destruct (match dataloader with
            | Some dl => iter_dataloader dl
            | None => lift (Raise TypeError)
            end _) as [w1 [batches|e]]; [|reflexivity].
  now destruct (evaluate_loop batches [] [] w1) as [w2 [[y_true y_pred]|e]].
Qed.

(** After the call the model is in evaluation mode, also when it raised. *)
Lemma evaluate_sets_eval_mode dataloader w :
  training (fst (evaluate dataloader w)) = false.
Proof.
  rewrite evaluate_unfold.
  change false with (training (eval_world w)).
  generalize (eval_world w). apply preserves_bind.
  - apply preserves_bind.
    + destruct dataloader; [|apply preserves_lift].
      apply iter_dataloader_frame; intros; frame_prim.
    + intros. apply evaluate_loop_frame; intros; frame_prim.
  - intros [y_true y_pred]. apply preserves_bind; [|intros; apply preserves_ret].
    apply evaluate_report_frame; intros; frame_prim.
Qed.

End EvaluateFrame.

(** C9. [evaluate] never changes the classifier's parameters: the encoder,
    LSTM and linear-head weights (and the stored gradients) are the same
    after the call as before, for every model, loader and outcome; the call
    only leaves the model in evaluation mode. *)
Theorem evaluate_never_mutates_parameters {B : Backend}
    (dataloader : option DataLoader) (w : World) :
  let w' := fst (evaluate dataloader w) in
  params w' = params w
  /\ bert (params w') = bert (params w)
  /\ lstm (params w') = lstm (params w)
  /\ weight (classifier (params w')) = weight (classifier (params w))
  /\ bias (classifier (params w')) = bias (classifier (params w))
  /\ grad w' = grad w
  /\ training w' = false.
Proof.
  cbv zeta. pose proof (evaluate_keeps_params dataloader w) as Hp.
  rewrite Hp. repeat split.
  - apply evaluate_keeps_grad.
  - apply evaluate_sets_eval_mode.
Qed.

(** ** Evaluation is a function of the frozen model and the stream *)

Section Determinism.
Context {B : Backend}.

Lemma deterministic_ret {A} (a : A) : deterministic (ret a).
Proof.
  intros w1 w2 H. repeat split; try apply H. exists []. now rewrite !app_nil_r.
Qed.

Lemma deterministic_lift {A} (r : result A) : deterministic (lift r).
Proof.
  intros w1 w2 H. repeat split; try apply H. exists []. now rewrite !app_nil_r.
Qed.

Lemma deterministic_log (e : Event) : deterministic (log e).
Proof.
  intros w1 w2 H. repeat split; try apply H. exists []. simpl. now rewrite !app_nil_r.
Qed.

Lemma deterministic_print (o : Output) : deterministic (print o).
Proof.
  intros w1 w2 H. repeat split; try apply H. now exists [o].
Qed.

Lemma deterministic_params : deterministic (fun w => (w, Ok (params w))).
Proof.
  intros w1 w2 H. repeat split; try apply H.
  - simpl. f_equal. apply H.
  - exists []. simpl. now rewrite !app_nil_r.
Qed.

Lemma agrees_bind {A C} (m : M A) (k : A -> M C) w1 w2 :
  agrees m w1 w2 -> (forall a, deterministic (k a)) -> agrees (bind m k) w1 w2.
Proof.
  intros (Hres & Hsame & out1 & Ho1 & Ho2) Hk. unfold agrees, bind.
  destruct (m w1) as [w1' r1], (m w2) as [w2' r2]. simpl in *. subst r2.
  destruct r1 as [a|e].
  - destruct (Hk a w1' w2' Hsame) as (Hres' & Hsame' & out2 & Ho1' & Ho2').
    repeat split; try apply Hsame'; auto.
    exists (out1 ++ out2). rewrite Ho1', Ho2', Ho1, Ho2. now rewrite !app_assoc.
  - repeat split; try apply Hsame. now exists out1.
Qed.

Lemma deterministic_bind {A C} (m : M A) (k : A -> M C) :
  deterministic m -> (forall a, deterministic (k a)) -> deterministic (bind m k).
Proof. intros Hm Hk w1 w2 H. apply agrees_bind; auto. Qed.

(** In evaluation mode dropout is the identity and draws nothing. *)
Lemma deterministic_dropout x : deterministic (dropout x).
Proof.
  intros w1 w2 (Hp & H1 & H2). unfold agrees, dropout. rewrite H1, H2. simpl.
  repeat split; auto. exists []. now rewrite !app_nil_r.
Qed.

Lemma deterministic_forward ids mask : deterministic (forward ids mask).
Proof.
  unfold forward.
  apply deterministic_bind; [apply deterministic_params | intros p].
  apply deterministic_bind; [apply deterministic_lift | intros outputs].
  apply deterministic_bind; [apply deterministic_lift | intros [lstm_output [h_n c_n]]].
  apply deterministic_bind; [apply deterministic_lift | intros fw].
  apply deterministic_bind; [apply deterministic_lift | intros bw].
  apply deterministic_bind; [apply deterministic_lift | intros pooled].
  apply deterministic_bind; [apply deterministic_dropout | intros dropped].
  apply deterministic_bind; [apply deterministic_lift | intros logits].
  apply deterministic_ret.
Qed.

Lemma deterministic_evaluate_loop batches :
  forall y_true y_pred, deterministic (evaluate_loop batches y_true y_pred).
Proof.
  induction batches as [|[[ids mask] labels] rest IH]; intros y_true y_pred.
  - apply deterministic_ret.
  - cbn [evaluate_loop].
    apply deterministic_bind; [apply deterministic_log | intros _].
    apply deterministic_bind; [apply deterministic_forward | intros outputs].
    apply deterministic_bind; [apply deterministic_lift | intros predicted].
    apply IH.
Qed.

(** A sequential loader yields the same stream every time. *)
Lemma deterministic_iter_sequential dl :
  sampler dl = SequentialSampler -> deterministic (iter_dataloader dl).
Proof.
  intros Hs. unfold iter_dataloader, sampler_indices. rewrite Hs.
  apply deterministic_bind; [apply deterministic_ret | intros idx].
  apply deterministic_lift.
Qed.

Lemma deterministic_evaluate_report y_true y_pred :
  deterministic (evaluate_report y_true y_pred).
Proof.
  unfold evaluate_report.
  apply deterministic_bind; [apply deterministic_print | intros _].
  apply deterministic_bind; [apply deterministic_lift | intros report].
  apply deterministic_bind; [apply deterministic_print | intros _].
  apply deterministic_bind; [apply deterministic_print | intros _].
  apply deterministic_bind; [apply deterministic_lift | intros cm].
  apply deterministic_print.
Qed.

(** [evaluate_collect] first forces evaluation mode, so it agrees on any two
    worlds that hold the same parameters, whatever their mode, generator,
    gradients or log. *)
Lemma evaluate_collect_agrees dl w1 w2 :
  sampler dl = SequentialSampler ->
  params w1 = params w2 ->
  agrees (evaluate_collect (Some dl)) w1 w2.
Proof.
  intros Hs Hp. unfold evaluate_collect.
  set (rest := bind (iter_dataloader dl) (fun batches => evaluate_loop batches [] [])).
  assert (Hrest : deterministic rest).
  { apply deterministic_bind; [now apply deterministic_iter_sequential | intros].
    apply deterministic_evaluate_loop. }
  unfold agrees, bind at 1 2 3 4 5 6. simpl. unfold bind at 1 2 3 4 5 6. simpl.
  match goal with
  | |- snd (rest ?a) = snd (rest ?b) /\ _ =>
      assert (Hab : same_frozen_model a b) by (repeat split; assumption);
      destruct (Hrest a b Hab) as (H1 & H2 & out & H3 & H4)
  end.
  repeat split; try apply H2; auto. exists out. simpl in H3, H4. auto.
Qed.

Lemma evaluate_agrees dl w1 w2 :
  sampler dl = SequentialSampler ->
  params w1 = params w2 ->
  agrees (evaluate (Some dl)) w1 w2.
Proof.
  intros Hs Hp. unfold evaluate. apply agrees_bind.
  - now apply evaluate_collect_agrees.
  - intros [y_true y_pred].
    apply deterministic_bind; [apply deterministic_evaluate_report | intros _].
    apply deterministic_ret.
Qed.

End Determinism.

(** C6. Running [evaluate] twice over the same frozen model and the same
    unshuffled batch stream gives the same per-example true and predicted
    labels, the same result, and prints the same report and confusion
    matrix, whatever state the first run started from. *)
Theorem evaluate_twice_identical {B : Backend} (w : World) (dl : DataLoader) :
  sampler dl = SequentialSampler ->
  let run1 := evaluate (Some dl) w in
  let run2 := evaluate (Some dl) (fst run1) in
  snd (evaluate_collect (Some dl) (fst run1)) = snd (evaluate_collect (Some dl) w)
  /\ snd run2 = snd run1
  /\ exists out, stdout (fst run1) = stdout w ++ out
                 /\ stdout (fst run2) = stdout (fst run1) ++ out.
Proof.
  intros Hs run1 run2.
  assert (Hp : params w = params (fst run1)).
  { symmetry. apply evaluate_keeps_params. }
  destruct (evaluate_collect_agrees dl w (fst run1) Hs Hp) as (Hc & _).
  destruct (evaluate_agrees dl w (fst run1) Hs Hp) as (Hr & _ & out & Ho1 & Ho2).
  repeat split; auto. now exists out.
Qed.

(** ** Shapes through the forward pass *)

Section Shapes.
Context {B : Backend}.

Lemma rand_list_length n : forall g, length (fst (rand_list n g)) = n.
Proof.
  induction n as [|n IH]; intros g; simpl; [reflexivity|].
  destruct (rand_uniform g) as [x g1]. specialize (IH g1).
  destruct (rand_list n g1) as [xs g2]. simpl in *. now rewrite IH.
Qed.

Lemma rand_matrix_shape rows cols : forall g,
  shape2 (fst (rand_matrix rows cols g)) rows cols.
Proof.
  induction rows as [|rows IH]; intros g; simpl.
  - split; [reflexivity | constructor].
  - pose proof (rand_list_length cols g) as Hr.
    destruct (rand_list cols g) as [r g1]. destruct (IH g1) as [Hlen Hall].
    destruct (rand_matrix rows cols g1) as [m g2]. simpl in *.
    split; [simpl; congruence | now constructor].
Qed.

(** [nn.Linear(i, o)] holds an [o] by [i] weight matrix and [o] biases. *)
Lemma nn_Linear_shape i o g :
  let l := fst (nn_Linear i o g) in
  in_features l = i /\ out_features l = o
  /\ shape2 (weight l) o i /\ length (bias l) = o.
Proof.
  unfold nn_Linear. pose proof (rand_matrix_shape o i g) as Hw.
  destruct (rand_matrix o i g) as [wt g1].
  pose proof (rand_list_length o g1) as Hb.
  destruct (rand_list o g1) as [bs g2]. simpl in *. auto.
Qed.

Lemma BERTBiLSTM_init_fields bert_path num_labels hidden_size lstm_hidden_size g :
  let p := fst (BERTBiLSTM_init bert_path num_labels hidden_size lstm_hidden_size g) in
  bert p = from_pretrained bert_path
  /\ (exists g0, lstm p = fst (nn_LSTM (bert_hidden_size (bert p)) lstm_hidden_size g0))
  /\ (exists g1, classifier p = fst (nn_Linear (2 * lstm_hidden_size) num_labels g1)).
Proof.
  unfold BERTBiLSTM_init.
  destruct (nn_LSTM (bert_hidden_size (from_pretrained bert_path)) lstm_hidden_size g)
    as [l g1] eqn:El.
  destruct (nn_Linear (2 * lstm_hidden_size) num_labels g1) as [c g2] eqn:Ec.
  cbv zeta. cbn [fst bert lstm classifier]. repeat split.
  - exists g. now rewrite El.
  - exists g1. now rewrite Ec.
Qed.

Lemma cat_dim1_shape (a c : list (list R)) b h :
  shape2 a b h -> shape2 c b h ->
  cat_dim1 a c = Ok (map (fun p => fst p ++ snd p) (combine a c))
  /\ shape2 (map (fun p => fst p ++ snd p) (combine a c)) b (2 * h).
Proof.
  intros [Ha Hra] [Hc Hrc]. unfold cat_dim1.
  rewrite Ha, Hc, Nat.eqb_refl. split; [reflexivity|]. split.
  - rewrite length_map, length_combine. lia.
  - apply Forall_map. apply Forall_forall. intros [x y] Hin. simpl.
    rewrite Forall_forall in Hra, Hrc.
    rewrite length_app, (Hra x), (Hrc y); [lia | |].
    + eapply in_combine_r; eauto.
    + eapply in_combine_l; eauto.
Qed.

Lemma dropout_row_length x : forall g, length (fst (dropout_row x g)) = length x.
Proof.
  induction x as [|v x IH]; intros g; simpl; [reflexivity|].
  destruct (bernoulli_keep g) as [keep g1]. specialize (IH g1).
  destruct (dropout_row x g1) as [r g2]. simpl in *. now rewrite IH.
Qed.

Lemma dropout_rows_shape x b n : forall g,
  shape2 x b n -> shape2 (fst (dropout_rows x g)) b n.
Proof.
  revert b. induction x as [|row x IH]; intros b g [Hlen Hall]; simpl.
  - split; [exact Hlen | constructor].
  - pose proof (dropout_row_length row g) as Hr.
    destruct (dropout_row row g) as [r g1].
    inversion Hall as [|? ? Hrow Hrest]; subst.
    destruct (IH (length x) g1 (conj eq_refl Hrest)) as [Hl Ha].
    destruct (dropout_rows x g1) as [rs g2]. simpl in *.
    split; [simpl in *; congruence | constructor; [congruence | exact Ha]].
Qed.

(** Dropout keeps the shape; in evaluation mode it changes nothing. *)
Lemma dropout_shape x b n w :
  shape2 x b n ->
  exists w' d, dropout x w = (w', Ok d) /\ shape2 d b n
               /\ (training w = false -> d = x /\ w' = w).
Proof.
  intros Hx. unfold dropout. destruct (training w) eqn:Ht.
  - unfold with_rng. pose proof (dropout_rows_shape x b n (rng w) Hx) as Hd.
    destruct (dropout_rows x (rng w)) as [d g1]. simpl in Hd.
    eexists _, d. repeat split; try apply Hd; discriminate.
  - exists w, x. repeat split; apply Hx.
Qed.

Lemma linear_shape (l : Linear R) x b :
  shape2 (weight l) (out_features l) (in_features l) ->
  length (bias l) = out_features l ->
  shape2 x b (in_features l) ->
  linear l x = Ok (map (linear_row l) x)
  /\ shape2 (map (linear_row l) x) b (out_features l).
Proof.
  intros [Hw _] Hb [Hx Hrows]. unfold linear.
  assert (Hall : forallb (fun row => (length row =? in_features l)%nat) x = true).
  { apply forallb_forall. intros row Hin. rewrite Forall_forall in Hrows.
    apply Nat.eqb_eq. now apply Hrows. }
  rewrite Hall. split; [reflexivity|]. split.
  - now rewrite length_map.
  - apply Forall_map. apply Forall_forall. intros row _.
    unfold linear_row. rewrite length_map, length_combine. lia.
Qed.

(** The two matrices of a bidirectional [h_n]. *)
Lemma h_n_directions (h_n : list (list (list R))) b h :
  shape3 h_n 2 b h ->
  exists fw bw, h_n = [fw; bw]
    /\ getitem_neg h_n 2 = Ok fw /\ getitem_neg h_n 1 = Ok bw
    /\ shape2 fw b h /\ shape2 bw b h.
Proof.
  intros [Hlen Hall].
  destruct h_n as [|fw [|bw [|]]]; try discriminate.
  inversion Hall as [|? ? Hfw Hrest]; subst.
  inversion Hrest as [|? ? Hbw _]; subst.
  exists fw, bw. repeat split; try apply Hfw; try apply Hbw.
Qed.

End Shapes.

(** C5. For a classifier built by [BERTBiLSTM.__init__] with [num_labels]
    classes (10 in the script) and every well-shaped batch of [b >= 1]
    examples, [b = 1] included, [forward] returns logits of shape
    [(b, num_labels)]: the encoder's per-token output goes through the
    bidirectional LSTM, the final hidden states of the two directions are
    concatenated into rows of [2 * lstm_hidden_size] entries, dropout is
    applied (the identity in evaluation mode), and the logits are the linear
    head's output on those rows, with no softmax after it. *)
Theorem forward_logits_shape {B : Backend} {L : BackendLaws B}
    (bert_path : string) (num_labels hidden_size lstm_hidden_size : nat)
    (g : Rng) (w : World) (ids mask : list (list Z)) (b l : nat) :
  params w = fst (BERTBiLSTM_init bert_path num_labels hidden_size lstm_hidden_size g) ->
  (1 <= b)%nat -> (1 <= l <= 512)%nat ->
  shape2 ids b l -> shape2 mask b l ->
  exists sequence_output lstm_output h_n c_n fw bw pooled dropped logits w',
    bert_forward (bert (params w)) ids mask = Ok sequence_output
    /\ lstm_forward (lstm (params w)) sequence_output = Ok (lstm_output, (h_n, c_n))
    /\ h_n = [fw; bw]
    /\ pooled = map (fun p => fst p ++ snd p) (combine fw bw)
    /\ shape2 pooled b (2 * lstm_hidden_size)
    /\ dropout pooled w = (w', Ok dropped)
    /\ (training w = false -> dropped = pooled /\ w' = w)
    /\ logits = map (linear_row (classifier (params w))) dropped
    /\ forward ids mask w = (w', Ok logits)
    /\ shape2 logits b num_labels.
Proof.
  intros Hp Hb Hl Hids Hmask.
  destruct (BERTBiLSTM_init_fields bert_path num_labels hidden_size lstm_hidden_size g)
    as (Hbert & [g0 Hlstm] & [g1 Hcls]).
  rewrite <- Hp in Hbert, Hlstm, Hcls.
  destruct (bert_forward_shape (bert (params w)) ids mask b l Hb (proj1 Hl) (proj2 Hl)
              Hids Hmask) as (out & Hout & Hshape).
  destruct (lstm_forward_shape (bert_hidden_size (bert (params w))) lstm_hidden_size g0
              out b l Hb (proj1 Hl) Hshape) as (lo & h_n & c_n & Hrun & Hh).
  rewrite <- Hlstm in Hrun.
  destruct (h_n_directions h_n b lstm_hidden_size Hh)
    as (fw & bw & Hhn & Hfw & Hbw & Sfw & Sbw).
  destruct (cat_dim1_shape fw bw b lstm_hidden_size Sfw Sbw) as [Hcat Spooled].
  set (pooled := map (fun p => fst p ++ snd p) (combine fw bw)) in *.
  destruct (dropout_shape pooled b (2 * lstm_hidden_size) w Spooled)
    as (w' & dropped & Hdrop & Sdropped & Heval).
  destruct (nn_Linear_shape (2 * lstm_hidden_size) num_labels g1)
    as (Hin & Hout' & Sw & Sb).
  rewrite <- Hcls in Hin, Hout', Sw, Sb.
  assert (Hlin : linear (classifier (params w)) dropped
                 = Ok (map (linear_row (classifier (params w))) dropped)
                 /\ shape2 (map (linear_row (classifier (params w))) dropped) b num_labels).
  { rewrite <- Hout'. apply linear_shape.
    - now rewrite Hin, Hout'.
    - now rewrite Hout'.
    - now rewrite Hin. }
  destruct Hlin as [Hlin Slogits].
  assert (Hpw : params w' = params w).
  { pose proof (preserves_dropout params pooled (rng_frame_params _) w) as Hk.
    rewrite Hdrop in Hk. exact Hk. }
  exists out, lo, h_n, c_n, fw, bw, pooled, dropped,
    (map (linear_row (classifier (params w))) dropped), w'.
  repeat split; try apply Spooled; try apply Slogits; try apply Heval; auto.
  unfold forward, bind, lift, ret. rewrite Hout, Hrun, Hfw, Hbw, Hcat, Hdrop, Hlin.
  reflexivity.
Qed.

(** ** The batch stream of one pass *)

Section Stream.
Context {B : Backend}.

Lemma examples_of_collate xs : examples_of (collate xs) = xs.
Proof.
  unfold examples_of, collate. simpl.
  induction xs as [|[[i m] y] xs IH]; simpl; [reflexivity | now rewrite IH].
Qed.

(** The batches of [batch_sampler] are the index list cut in pieces. *)
Lemma batch_sampler_concat bs idx : forall batch,
  concat (batch_sampler bs idx batch) = batch ++ idx.
Proof.
  induction idx as [|i rest IH]; intros batch; simpl.
  - destruct batch; simpl; [reflexivity | now rewrite app_nil_r].
  - destruct (length (batch ++ [i]) =? bs)%nat; simpl.
    + rewrite IH. simpl. now rewrite <- app_assoc.
    + rewrite IH. now rewrite <- app_assoc.
Qed.

Lemma fetch_ok ds idx : forall xs,
  fetch ds idx = Ok xs -> map Some xs = map (nth_error ds) idx.
Proof.
  induction idx as [|i rest IH]; intros xs H; simpl in H.
  - now inversion H.
  - unfold Ingest.getitem in H. destruct (nth_error ds i) as [x|] eqn:Ei; [|discriminate].
    destruct (fetch ds rest) as [xs'|]; [|discriminate].
    inversion H; subst. simpl. now rewrite Ei, (IH xs' eq_refl).
Qed.

Lemma load_batches_ok ds chunks : forall batches,
  load_batches ds chunks = Ok batches ->
  map Some (concat (map examples_of batches)) = map (nth_error ds) (concat chunks)
  /\ Forall (fun b => exists xs, b = collate xs) batches.
Proof.
  induction chunks as [|c rest IH]; intros batches H; simpl in H.
  - inversion H; subst. split; [reflexivity | constructor].
  - destruct (fetch ds c) as [xs|] eqn:Ef; [|discriminate].
    destruct (load_batches ds rest) as [bs|]; [|discriminate].
    inversion H; subst. destruct (IH bs eq_refl) as [IH1 IH2]. split.
    + simpl. rewrite !map_app, examples_of_collate, IH1. f_equal. now apply fetch_ok.
    + constructor; [now exists xs | exact IH2].
Qed.

Lemma nth_error_seq {A} (l : list A) :
  map (nth_error l) (seq 0 (length l)) = map Some l.
Proof.
  induction l as [|a l IH]; [reflexivity|].
  cbn [length seq map nth_error]. f_equal.
  rewrite <- seq_shift, map_map. exact IH.
Qed.

Lemma map_Some_inj {A} (l1 l2 : list A) : map Some l1 = map Some l2 -> l1 = l2.
Proof.
  revert l2. induction l1 as [|a l1 IH]; intros [|b l2] H; try discriminate; auto.
  inversion H. f_equal. now apply IH.
Qed.

(** One pass over a loader yields every example of the dataset exactly once:
    in dataset order under the sequential sampler, in the order of the
    permutation drawn under the random one. *)
Lemma iter_dataloader_stream {L : BackendLaws B} dl w w' batches :
  iter_dataloader dl w = (w', Ok batches) ->
  Permutation (concat (map examples_of batches)) (dataset dl)
  /\ (sampler dl = SequentialSampler ->
      concat (map examples_of batches) = dataset dl).
Proof.
  unfold iter_dataloader, bind, lift, sampler_indices.
  destruct (sampler dl) eqn:Es.
  - unfold with_rng.
    pose proof (randperm_perm (rng w) (length (dataset dl))) as Hperm.
    destruct (randperm (rng w) (length (dataset dl))) as [idx g1]. simpl in Hperm.
    destruct (load_batches (dataset dl) (batch_sampler (batch_size dl) idx []))
      as [bs|] eqn:El; intros H; inversion H; subst.
    apply load_batches_ok in El as [El _]. rewrite batch_sampler_concat in El.
    simpl in El. split; [|discriminate].
    apply (Permutation_map (nth_error (dataset dl))) in Hperm.
    rewrite <- El, nth_error_seq in Hperm.
    apply Permutation_sym, Permutation_map_inv in Hperm as (l3 & Heq & Hp).
    apply map_Some_inj in Heq. subst l3. now apply Permutation_sym.
  - unfold ret.
    destruct (load_batches (dataset dl)
                (batch_sampler (batch_size dl) (seq 0 (length (dataset dl))) []))
      as [bs|] eqn:El; intros H; inversion H; subst.
    apply load_batches_ok in El as [El _]. rewrite batch_sampler_concat in El.
    simpl in El. rewrite nth_error_seq in El. apply map_Some_inj in El.
    rewrite El. split; [apply Permutation_refl | reflexivity].
Qed.

(** In evaluation mode a forward pass leaves the world as it is. *)
Lemma forward_eval_world ids mask w :
  training w = false -> fst (forward ids mask w) = w.
Proof.
  intros Ht. unfold forward, bind, lift, ret.
  destruct (bert_forward (bert (params w)) ids mask) as [out|]; [|reflexivity].
  destruct (lstm_forward (lstm (params w)) out) as [[lo [h_n c_n]]|]; [|reflexivity].
  destruct (getitem_neg h_n 2) as [fw|]; [|reflexivity].
  destruct (getitem_neg h_n 1) as [bw|]; [|reflexivity].
  destruct (cat_dim1 fw bw) as [pooled|]; [|reflexivity].
  unfold dropout. rewrite Ht.
  destruct (linear (classifier (params w)) pooled); reflexivity.
Qed.

(** A loop that returns has made one forward pass per batch, in order, and
    appended each batch's labels and predictions in that order. *)
Lemma evaluate_loop_ok batches : forall y_true0 y_pred0 w w' y_true y_pred w0,
  same_frozen_model w w0 ->
  evaluate_loop batches y_true0 y_pred0 w = (w', Ok (y_true, y_pred)) ->
  y_true = y_true0 ++ concat (map snd batches)
  /\ trace w' = trace w ++ repeat (EvForward false) (length batches)
  /\ same_frozen_model w' w0
  /\ exists preds, y_pred = y_pred0 ++ concat preds
                   /\ Forall2 (predicts w0) batches preds.
Proof.
  induction batches as [|[[ids mask] labels] rest IH];
    intros y_true0 y_pred0 w w' y_true y_pred w0 Hsame Hrun.
  - inversion Hrun; subst. simpl. rewrite !app_nil_r. repeat split; try apply Hsame.
    exists []. rewrite app_nil_r. split; [reflexivity | constructor].
  - cbn [evaluate_loop] in Hrun. unfold bind at 1 in Hrun. simpl in Hrun.
    set (w1 := mkWorld (params w) (grad w) (training w) (rng w) (stdout w)
                       (trace w ++ [EvForward false])) in *.
    assert (Hsame1 : same_frozen_model w1 w0) by (repeat split; apply Hsame).
    assert (Hw1 : fst (forward ids mask w1) = w1)
      by (apply forward_eval_world; apply Hsame).
    destruct (deterministic_forward ids mask w1 w0 Hsame1) as (Hres & _).
    unfold bind at 1 in Hrun.
    destruct (forward ids mask w1) as [w2 [outputs|e]] eqn:Ef; [|discriminate].
    simpl in Hw1, Hres. subst w2.
    unfold bind at 1, lift in Hrun.
    destruct (argmax_dim1 outputs) as [predicted|e] eqn:Ea; [|discriminate].
    destruct (IH _ _ _ _ _ _ w0 Hsame1 Hrun) as (Hy & Ht & Hs & preds & Hp & Hall).
    repeat split; try apply Hs.
    + rewrite Hy. simpl. now rewrite <- app_assoc.
    + rewrite Ht. simpl. now rewrite <- app_assoc.
    + exists (predicted :: preds). split.
      * rewrite Hp. simpl. now rewrite <- app_assoc.
      * constructor; [|exact Hall]. exists outputs. simpl. split; [now symmetry | exact Ea].
Qed.

End Stream.

Section Collect.
Context {B : Backend}.

Lemma evaluate_collect_unfold dl w :
  evaluate_collect (Some dl) w
  = bind (iter_dataloader dl) (fun batches => evaluate_loop batches [] []) (eval_world w).
Proof. reflexivity. Qed.

Lemma evaluate_collect_ok dl w w' y_true y_pred :
  evaluate_collect (Some dl) w = (w', Ok (y_true, y_pred)) ->
  exists w1 batches,
    iter_dataloader dl (eval_world w) = (w1, Ok batches)
    /\ evaluate_loop batches [] [] w1 = (w', Ok (y_true, y_pred))
    /\ same_frozen_model w1 w1
    /\ trace w1 = trace w ++ [EvModelEval].
Proof.
  rewrite evaluate_collect_unfold. unfold bind at 1.
  pose proof (iter_dataloader_frame params dl (fun n => rng_frame_params _) (eval_world w)) as Hp.
  pose proof (iter_dataloader_frame training dl (fun n => rng_frame_training _) (eval_world w)) as Ht.
  pose proof (iter_dataloader_frame trace dl (fun n => rng_frame_trace _) (eval_world w)) as Htr.
  destruct (iter_dataloader dl (eval_world w)) as [w1 [batches|e]]; [|discriminate].
  intros Hrun. exists w1, batches. simpl in *. repeat split; auto.
Qed.

Lemma predicts_agree w1 w2 b predicted :
  same_frozen_model w1 w2 -> predicts w1 b predicted -> predicts w2 b predicted.
Proof.
  intros Hsame (logits & Hf & Ha). exists logits. split; [|exact Ha].
  destruct (deterministic_forward (fst (fst b)) (snd (fst b)) w1 w2 Hsame) as (Hres & _).
  now rewrite <- Hres.
Qed.

Lemma evaluate_collect_quiet dataloader : preserves stdout (evaluate_collect dataloader).
Proof.
  unfold evaluate_collect.
  apply preserves_bind; [frame_prim | intros _].
  apply preserves_bind; [frame_prim | intros _].
  apply preserves_bind.
  - destruct dataloader; [|apply preserves_lift].
    apply iter_dataloader_frame; intros; frame_prim.
  - intros. apply evaluate_loop_frame; intros; frame_prim.
Qed.

(** The report step on collected labels: what it prints and how it ends. *)
Lemma evaluate_report_run y_true y_pred w :
  let labels := Sklearn.unique_labels y_true y_pred in
  (length labels <> 10%nat ->
   snd (evaluate_report y_true y_pred w) = Raise ValueError
   /\ stdout (fst (evaluate_report y_true y_pred w))
      = stdout w ++ [OutLine "Classification Report:"])
  /\ (length labels = 10%nat -> length y_true = length y_pred ->
      exists rows cm,
        Sklearn.classification_report y_true y_pred target_names = Ok rows
        /\ Sklearn.confusion_matrix y_true y_pred = Ok cm
        /\ length rows = 10%nat /\ shape2 cm 10 10
        /\ snd (evaluate_report y_true y_pred w) = Ok tt
        /\ stdout (fst (evaluate_report y_true y_pred w))
           = stdout w ++ [OutLine "Classification Report:"; OutReport rows;
                          OutLine "Confusion Matrix:"; OutMatrix cm]).
Proof.
  cbv zeta. split.
  - intros Hne. unfold evaluate_report, bind, lift, print. simpl.
    unfold Sklearn.classification_report.
    destruct (Sklearn.check_targets y_true y_pred) as [[]|e] eqn:Ec.
    + apply Nat.eqb_neq in Hne. change (length target_names) with 10%nat.
      rewrite Hne. simpl. auto.
    + unfold Sklearn.check_targets in Ec.
      destruct (length y_true =? length y_pred)%nat; inversion Ec. simpl. auto.
  - intros Hten Hlen.
    assert (Hc : Sklearn.check_targets y_true y_pred = Ok tt).
    { unfold Sklearn.check_targets. now rewrite Hlen, Nat.eqb_refl. }
    unfold evaluate_report, bind, lift, print. simpl.
    unfold Sklearn.classification_report, Sklearn.confusion_matrix. rewrite Hc.
    change (length target_names) with 10%nat. rewrite Hten. simpl.
    eexists _, _. repeat split.
    + rewrite length_map, length_combine, Hten. reflexivity.
    + now rewrite length_map.
    + apply Forall_map. apply Forall_forall. intros a _. now rewrite length_map.
    + now rewrite <- !app_assoc.
Qed.

End Collect.


(** The executable backend honours the contracts of [BackendLaws]. *)
Lemma stub_laws : BackendLaws Stub.backend.
Proof.
  constructor.
  - intros w ids mask b l _ _ _ [Hlen Hrows] _. eexists. split; [reflexivity|].
    split; [now rewrite length_map|].
    apply Forall_map. apply Forall_forall. intros row Hin. split.
    + rewrite length_map. rewrite Forall_forall in Hrows. now apply Hrows.
    + apply Forall_map. apply Forall_forall. intros tok _. apply repeat_length.
  - intros i h g x b l _ _ [Hlen _]. eexists _, _, _. split; [reflexivity|].
    split; [reflexivity|].
    repeat constructor; try (now rewrite length_map);
      apply Forall_map; apply Forall_forall; intros sq _; apply repeat_length.
  - intros g n. simpl. apply Permutation_sym, Permutation_rev.
Qed.

(** C2, as the claim states it, fails for the final test evaluation: the test
    loader is built with a random sampler, so the labels [evaluate] collects
    are not in the order of the test examples. *)
Lemma test_stream_is_shuffled :
  ~ (forall (B : Backend) (L : BackendLaws B) (w w' : World) (test_dataset : list Example)
            (y_true y_pred : list Z),
       evaluate_collect (Some (test_dataloader test_dataset)) w
         = (w', Ok (y_true, y_pred)) ->
       y_true = map snd test_dataset).
Proof.
  intros H.
  assert (E : evaluate_collect (Some (test_dataloader Stub.examples2)) Stub.world0
              = (fst (evaluate_collect (Some (test_dataloader Stub.examples2)) Stub.world0),
                 Ok ([1; 0], [8; 8]))) by (vm_compute; reflexivity).
  specialize (H Stub.backend stub_laws _ _ _ _ _ E).
  discriminate H.
Qed.

(** C2, amended. Whatever stream a loader yields, [evaluate] makes exactly
    one forward pass per batch, in stream order, and appends each batch's
    true and predicted labels in that order; it never reorders the stream
    itself.  The stream holds every example of the dataset exactly once: in
    dataset order under a sequential sampler, in the order of a drawn
    permutation under the random sampler the script uses for the test set. *)
Theorem evaluate_processes_stream_in_order {B : Backend} {L : BackendLaws B}
    (w w' : World) (dl : DataLoader) (y_true y_pred : list Z) :
  evaluate_collect (Some dl) w = (w', Ok (y_true, y_pred)) ->
  exists w1 batches preds,
    iter_dataloader dl (eval_world w) = (w1, Ok batches)
    /\ y_true = concat (map snd batches)
    /\ y_pred = concat preds
    /\ Forall2 (predicts w') batches preds
    /\ trace w' = trace w ++ EvModelEval :: repeat (EvForward false) (length batches)
    /\ Permutation (concat (map examples_of batches)) (dataset dl)
    /\ (sampler dl = SequentialSampler ->
        concat (map examples_of batches) = dataset dl).
Proof.
  intros Hrun.
  destruct (evaluate_collect_ok dl w w' y_true y_pred Hrun)
    as (w1 & batches & Hiter & Hloop & Hsame & Htrace).
  destruct (evaluate_loop_ok batches [] [] w1 w' y_true y_pred w1 Hsame Hloop)
    as (Hy & Ht & Hs & preds & Hp & Hall).
  destruct (iter_dataloader_stream dl _ _ _ Hiter) as [Hperm Hseq].
  exists w1, batches, preds. repeat split; auto.
  - eapply Forall2_impl; [|exact Hall]. intros b p Hb.
    apply (predicts_agree w1 w'); [|exact Hb].
    destruct Hs as (Ha & Hb' & Hc). repeat split; auto.
  - rewrite Ht, Htrace. now rewrite <- app_assoc.
Qed.

Lemma evaluate_processes_stream_in_order_witness :
  exists w1 batches preds,
    iter_dataloader (test_dataloader Stub.examples10) (eval_world Stub.world0)
      = (w1, Ok batches)
    /\ [9; 8; 7; 6; 5; 4; 3; 2; 1; 0] = concat (map snd batches)
    /\ [8; 8; 8; 8; 8; 8; 8; 8; 2; 2] = concat preds
    /\ Permutation (concat (map examples_of batches)) Stub.examples10.
Proof.
  assert (E : evaluate_collect (Some (test_dataloader Stub.examples10)) Stub.world0
              = (fst (evaluate_collect (Some (test_dataloader Stub.examples10)) Stub.world0),
                 Ok ([9; 8; 7; 6; 5; 4; 3; 2; 1; 0], [8; 8; 8; 8; 8; 8; 8; 8; 2; 2])))
    by (vm_compute; reflexivity).
  destruct (@evaluate_processes_stream_in_order Stub.backend stub_laws _ _ _ _ _ E)
    as (w1 & batches & preds & H1 & H2 & H3 & _ & _ & H6 & _).
  exists w1, batches, preds. repeat split; assumption.
Defined.

(** C8. The report step needs exactly 10 distinct labels among the collected
    true and predicted labels: with fewer or more, [evaluate] raises at the
    classification report, having printed only the report's heading (no
    report and no confusion matrix); with exactly 10 (and one prediction per
    example) it prints a 10-row report and a 10 by 10 matrix and returns. *)
Theorem report_requires_ten_classes {B : Backend}
    (dataloader : option DataLoader) (w w1 : World) (y_true y_pred : list Z) :
  evaluate_collect dataloader w = (w1, Ok (y_true, y_pred)) ->
  (length (Sklearn.unique_labels y_true y_pred) <> 10%nat ->
   snd (evaluate dataloader w) = Raise ValueError
   /\ stdout (fst (evaluate dataloader w))
      = stdout w ++ [OutLine "Classification Report:"])
  /\ (length (Sklearn.unique_labels y_true y_pred) = 10%nat ->
      length y_true = length y_pred ->
      exists rows cm,
        length rows = 10%nat /\ shape2 cm 10 10
        /\ snd (evaluate dataloader w) = Ok PyNone
        /\ stdout (fst (evaluate dataloader w))
           = stdout w ++ [OutLine "Classification Report:"; OutReport rows;
                          OutLine "Confusion Matrix:"; OutMatrix cm]).
Proof.
  intros Hrun.
  pose proof (evaluate_collect_quiet dataloader w) as Hq. rewrite Hrun in Hq.
  simpl in Hq.
  destruct (evaluate_report_run y_true y_pred w1) as [Hbad Hgood].
  unfold evaluate. unfold bind at 1 3 5 7. rewrite Hrun. unfold bind.
  split.
  - intros Hne. destruct (Hbad Hne) as [Hr Ho].
    destruct (evaluate_report y_true y_pred w1) as [w2 [[]|e]]; simpl in *;
      [discriminate|]. rewrite <- Hq. split; [congruence | exact Ho].
  - intros Hten Hlen.
    destruct (Hgood Hten Hlen) as (rows & cm & _ & _ & Hrows & Hcm & Hr & Ho).
    exists rows, cm.
    destruct (evaluate_report y_true y_pred w1) as [w2 [[]|e]]; simpl in *;
      [|discriminate]. rewrite <- Hq. auto.
Qed.

Lemma report_requires_ten_classes_witness :
  snd (evaluate (Some (test_dataloader Stub.examples2)) Stub.world0) = Raise ValueError
  /\ stdout (fst (evaluate (Some (test_dataloader Stub.examples2)) Stub.world0))
     = [OutLine "Classification Report:"].
Proof.
  assert (E : evaluate_collect (Some (test_dataloader Stub.examples2)) Stub.world0
              = (fst (evaluate_collect (Some (test_dataloader Stub.examples2)) Stub.world0),
                 Ok ([1; 0], [8; 8]))) by (vm_compute; reflexivity).
  refine (proj1 (@report_requires_ten_classes Stub.backend _ _ _ _ _ E) _).
  vm_compute. discriminate.
Defined.

(** ** Counting optimizer steps *)

Section Counting.
Context {B : Backend}.

Lemma adds_preserves {A} (m : M A) : preserves steps m -> adds_at_most 0 m.
Proof. intros H w. rewrite H. lia. Qed.

Lemma adds_bind {A C} n k (m : M A) (f : A -> M C) :
  adds_at_most n m -> (forall a, adds_at_most k (f a)) ->
  adds_at_most (n + k) (bind m f).
Proof.
  intros Hm Hf w. unfold bind. specialize (Hm w).
  destruct (m w) as [w' [a|e]]; simpl in *.
  - specialize (Hf a w'). lia.
  - lia.
Qed.

Lemma adds_weaken {A} n n' (m : M A) :
  (n <= n')%nat -> adds_at_most n m -> adds_at_most n' m.
Proof. intros Hle Hm w. specialize (Hm w). lia. Qed.

Lemma emits_preserves {A} (m : M A) : preserves trace m -> emits any [] m.
Proof.
  intros H w w' a Hrun. specialize (H w). rewrite Hrun in H. simpl in H.
  rewrite app_nil_r. now split.
Qed.

Lemma emits_bind {A C} (P : A -> Prop) (Q : C -> Prop) l1 l2 (m : M A) (k : A -> M C) :
  emits P l1 m -> (forall a, P a -> emits Q l2 (k a)) ->
  emits Q (l1 ++ l2) (bind m k).
Proof.
  intros Hm Hk w w' c. unfold bind.
  destruct (m w) as [w1 [a|e]] eqn:Em; [|discriminate].
  intros Hrun. destruct (Hm _ _ _ Em) as [Ht Pa].
  destruct (Hk a Pa _ _ _ Hrun) as [Ht' Qc].
  split; [|exact Qc]. rewrite Ht', Ht. now rewrite app_assoc.
Qed.

Lemma emits_log e : emits any [e] (log e).
Proof. intros w w' a H. inversion H; subst. now split. Qed.

Lemma emits_impl {A} (P Q : A -> Prop) l (m : M A) :
  (forall a, P a -> Q a) -> emits P l m -> emits Q l m.
Proof. intros HPQ Hm w w' a H. destruct (Hm _ _ _ H). auto. Qed.

Lemma zero_grad_frame_steps : preserves steps zero_grad.
Proof.
  unfold zero_grad. apply preserves_bind; [now apply log_frame_steps | intros _].
  frame_prim.
Qed.

Lemma backward_frame_steps t : preserves steps (backward t).
Proof.
  unfold backward. apply preserves_bind; [now apply log_frame_steps | intros _].
  intros w. unfold set_grad. reflexivity.
Qed.

Lemma optimizer_step_adds opt : adds_at_most 1 (optimizer_step opt).
Proof.
  intros w. unfold optimizer_step, bind, log. simpl.
  destruct (grad w) as [g|]; simpl.
  - destruct (AdamW_update (opt_state opt) (params w) g) as [st p]. simpl.
    unfold steps. simpl. rewrite update_count_app. unfold update_count at 2. simpl. lia.
  - unfold steps. simpl. rewrite update_count_app. unfold update_count at 2. simpl. lia.
Qed.

Lemma optimizer_step_emits opt :
  emits (fun opt' => lr opt' = lr opt) [EvStep (lr opt)] (optimizer_step opt).
Proof.
  intros w w' opt'. unfold optimizer_step, bind, log. simpl.
  destruct (grad w) as [g|]; simpl.
  - destruct (AdamW_update (opt_state opt) (params w) g) as [st p]. simpl.
    intros H; inversion H; subst. now split.
  - intros H; inversion H; subst. now split.
Qed.

Lemma forward_frame_steps ids mask : preserves steps (forward ids mask).
Proof. apply forward_frame; auto with frame. Qed.

Lemma forward_frame_trace ids mask : preserves trace (forward ids mask).
Proof. apply forward_frame; auto with frame. Qed.

(** Each batch makes at most one step, so a pass makes at most one per batch. *)
Lemma train_batches_adds batches : forall opt train_loss train_f1,
  adds_at_most (length batches) (train_batches opt batches train_loss train_f1).
Proof.
  induction batches as [|[[ids mask] labels] rest IH]; intros opt train_loss train_f1.
  - apply adds_preserves, preserves_ret.
  - cbn [train_batches length].
    apply (adds_weaken (0 + (0 + (0 + (0 + (0 + (0 + (0 + (1 + (0 + length rest)))))))))); [lia|].
    apply adds_bind; [apply adds_preserves, zero_grad_frame_steps | intros _].
    apply adds_bind; [apply adds_preserves, preserves_read | intros g0].
    apply adds_bind; [now apply adds_preserves, log_frame_steps | intros _].
    apply adds_bind; [apply adds_preserves, forward_frame_steps | intros logits].
    apply adds_bind; [now apply adds_preserves, log_frame_steps | intros _].
    apply adds_bind; [apply adds_preserves, preserves_lift | intros loss].
    apply adds_bind; [apply adds_preserves, backward_frame_steps | intros _].
    apply adds_bind; [apply optimizer_step_adds | intros opt'].
    apply adds_bind; [apply adds_preserves, preserves_lift | intros predicted].
    apply IH.
Qed.

(** A pass that returns has made, for each batch in turn, exactly the calls
    of [batch_events]: gradients cleared, one forward pass, the loss, one
    backward pass and one optimizer step at the optimizer's rate. *)
Lemma train_batches_emits batches : forall opt train_loss train_f1,
  emits (fun r => lr (fst (fst r)) = lr opt)
        (concat (repeat (batch_events (lr opt)) (length batches)))
        (train_batches opt batches train_loss train_f1).
Proof.
  induction batches as [|[[ids mask] labels] rest IH]; intros opt train_loss train_f1.
  - intros w w' a H. inversion H; subst. simpl. rewrite app_nil_r. now split.
  - cbn [train_batches length repeat concat]. unfold batch_events at 1.
    change ([EvZeroGrad; EvForward true; EvLoss; EvBackward; EvStep (lr opt)]
              ++ concat (repeat (batch_events (lr opt)) (length rest)))
      with ((([EvZeroGrad] ++ []) ++ [] ++ [EvForward true] ++ [] ++ [EvLoss] ++ []
              ++ ([EvBackward] ++ []) ++ [EvStep (lr opt)] ++ []
              ++ concat (repeat (batch_events (lr opt)) (length rest)))).
    apply (emits_bind any).
    { unfold zero_grad. apply (emits_bind any); [apply emits_log | intros _ _].
      apply emits_preserves. frame_prim. }
    intros _ _. apply (emits_bind any); [apply emits_preserves, preserves_read | intros g0 _].
    apply (emits_bind any); [apply emits_log | intros _ _].
    apply (emits_bind any); [apply emits_preserves, forward_frame_trace | intros logits _].
    apply (emits_bind any); [apply emits_log | intros _ _].
    apply (emits_bind any); [apply emits_preserves, preserves_lift | intros loss _].
    apply (emits_bind any).
    { unfold backward. apply (emits_bind any); [apply emits_log | intros _ _].
      apply emits_preserves. intros w. reflexivity. }
    intros _ _. apply (emits_bind (fun opt' => lr opt' = lr opt));
      [apply optimizer_step_emits | intros opt' Hlr].
    apply (emits_bind any); [apply emits_preserves, preserves_lift | intros predicted _].
    rewrite <- Hlr. eapply emits_impl; [|apply IH]. intros r Hr. congruence.
Qed.

End Counting.

Section Epochs.
Context {B : Backend}.

(** The number of batches [batch_sampler] cuts an index list into. *)
Lemma batch_sampler_length bs idx : forall batch,
  (0 < bs)%nat -> (length batch < bs)%nat ->
  length (batch_sampler bs idx batch)
  = ((length batch + length idx + bs - 1) / bs)%nat.
Proof.
  induction idx as [|i rest IH]; intros batch Hbs Hlt.
  - cbn [batch_sampler length]. destruct batch as [|x batch]; simpl length.
    + simpl. symmetry. apply Nat.div_small. lia.
    + simpl (0 <? _)%nat. simpl length in *.
      apply (Nat.div_unique _ _ 1%nat (length batch)); lia.
  - cbn [batch_sampler]. rewrite length_app. simpl length.
    destruct (length batch + 1 =? bs)%nat eqn:Efull.
    + apply Nat.eqb_eq in Efull. simpl length. rewrite IH by (simpl; lia).
      simpl length.
      replace (length batch + S (length rest) + bs - 1)%nat
        with ((0 + length rest + bs - 1) + 1 * bs)%nat by lia.
      rewrite Nat.div_add by lia. lia.
    + apply Nat.eqb_neq in Efull. rewrite IH; [|lia|rewrite length_app; simpl; lia].
      rewrite length_app. simpl length. f_equal. lia.
Qed.

Lemma load_batches_length ds chunks : forall batches,
  load_batches ds chunks = Ok batches -> length batches = length chunks.
Proof.
  induction chunks as [|c rest IH]; intros batches H; simpl in H.
  - now inversion H.
  - destruct (fetch ds c); [|discriminate].
    destruct (load_batches ds rest) as [bs|]; [|discriminate].
    inversion H; subst. simpl. now rewrite (IH bs eq_refl).
Qed.

(** Every pass over a loader has [len(dataloader)] batches, shuffled or not. *)
Lemma iter_dataloader_length {L : BackendLaws B} dl :
  (0 < batch_size dl)%nat ->
  emits (fun batches => length batches = len_dataloader dl) [] (iter_dataloader dl).
Proof.
  intros Hbs w w' batches Hrun.
  pose proof (iter_dataloader_frame trace dl (fun n => rng_frame_trace _) w) as Ht.
  rewrite Hrun in Ht. simpl in Ht. rewrite app_nil_r. split; [exact Ht|].
  revert Hrun. unfold iter_dataloader, bind, lift, sampler_indices, len_dataloader.
  assert (Hlen : forall idx bs,
             length idx = length (dataset dl) ->
             load_batches (dataset dl) (batch_sampler (batch_size dl) idx []) = Ok bs ->
             length bs = ((length (dataset dl) + batch_size dl - 1) / batch_size dl)%nat).
  { intros idx bs Hidx Hload. apply load_batches_length in Hload.
    rewrite Hload, batch_sampler_length by (simpl; lia). simpl. now rewrite Hidx. }
  destruct (sampler dl).
  - unfold with_rng.
    pose proof (randperm_perm (rng w) (length (dataset dl))) as Hperm.
    destruct (randperm (rng w) (length (dataset dl))) as [idx g1]. simpl in Hperm.
    apply Permutation_length in Hperm. rewrite length_seq in Hperm.
    destruct (load_batches (dataset dl) (batch_sampler (batch_size dl) idx []))
      as [bs|] eqn:El; intros H; inversion H; subst. now apply (Hlen idx).
  - unfold ret.
    destruct (load_batches (dataset dl)
                (batch_sampler (batch_size dl) (seq 0 (length (dataset dl))) []))
      as [bs|] eqn:El; intros H; inversion H; subst.
    apply (Hlen (seq 0 (length (dataset dl)))); [apply length_seq | exact El].
Qed.

Lemma iter_dataloader_batches {L : BackendLaws B} dl w :
  (0 < batch_size dl)%nat ->
  steps (fst (iter_dataloader dl w)) = steps w
  /\ forall batches, snd (iter_dataloader dl w) = Ok batches ->
                     length batches = len_dataloader dl.
Proof.
  intros Hbs. split.
  - apply (iter_dataloader_frame steps). intros; apply rng_frame_steps.
  - intros batches Hrun.
    destruct (iter_dataloader dl w) as [w' r] eqn:E. simpl in Hrun. subst r.
    now destruct (iter_dataloader_length dl Hbs _ _ _ E).
Qed.

(** [evaluate] has no [return]: when it returns, its value is [None]. *)
Lemma evaluate_returns_None dataloader w w' v :
  evaluate dataloader w = (w', Ok v) -> v = PyNone.
Proof.
  unfold evaluate, bind, ret.
  destruct (evaluate_collect dataloader w) as [w1 [[y_true y_pred]|e]]; [|discriminate].
  destruct (evaluate_report y_true y_pred w1) as [w2 [[]|e]]; [|discriminate].
  now intros H; inversion H.
Qed.

(** Unpacking [evaluate]'s value into two names never succeeds: the branch
    raises, with TypeError when [evaluate] itself returned. *)
Lemma validation_branch_raises train_dl val_dataloader epoch epochs train_loss train_f1 w :
  exists e, snd (validation_branch train_dl val_dataloader epoch epochs
                   train_loss train_f1 w) = Raise e
            /\ (is_ok (snd (evaluate val_dataloader w)) = true -> e = TypeError).
Proof.
  unfold validation_branch, bind at 1.
  destruct (evaluate val_dataloader w) as [w1 [v|e]] eqn:Ev.
  - apply evaluate_returns_None in Ev. subst v. exists TypeError. now split.
  - exists e. split; [reflexivity | discriminate].
Qed.

Lemma validation_branch_frame_steps train_dl val_dataloader epoch epochs train_loss train_f1 :
  preserves steps (validation_branch train_dl val_dataloader epoch epochs
                     train_loss train_f1).
Proof.
  unfold validation_branch.
  apply preserves_bind; [apply evaluate_keeps_steps | intros v].
  apply preserves_bind; [apply preserves_lift | intros [val_loss val_f1]].
  apply preserves_bind; [apply preserves_lift | intros tl].
  apply preserves_bind; [apply preserves_lift | intros tf].
  apply preserves_bind; [apply preserves_lift | intros vl].
  apply preserves_bind; [apply preserves_lift | intros vf].
  apply print_frame_steps.
Qed.

(** The reporting at the end of an epoch makes no optimizer step. *)
Lemma epoch_report_frame_steps train_dl val_dataloader epoch epochs (evaluation : bool)
    train_loss train_f1 :
  preserves steps
    (if evaluation
     then validation_branch train_dl val_dataloader epoch epochs train_loss train_f1
     else plain_branch train_dl epoch epochs train_loss train_f1).
Proof.
  destruct evaluation.
  - apply validation_branch_frame_steps.
  - unfold plain_branch.
    apply preserves_bind; [apply preserves_lift | intros tl].
    apply preserves_bind; [apply preserves_lift | intros tf].
    apply print_frame_steps.
Qed.

(** Over the epochs of [range], at most one step per batch and epoch. *)
Lemma train_epochs_adds {L : BackendLaws B} train_dl val_dataloader epochs evaluation range :
  (0 < batch_size train_dl)%nat ->
  forall opt,
    adds_at_most (length range * len_dataloader train_dl)
      (train_epochs opt train_dl val_dataloader epochs evaluation range).
Proof.
  intros Hbs. induction range as [|epoch range IH]; intros opt.
  - apply adds_preserves, preserves_ret.
  - cbn [train_epochs length].
    apply (adds_weaken (0 + (0 + (len_dataloader train_dl
                                  + length range * len_dataloader train_dl)))); [lia|].
    apply adds_bind; [now apply adds_preserves, log_frame_steps | intros _].
    apply adds_bind; [apply adds_preserves; frame_prim | intros _].
    intros w. unfold bind at 1.
    destruct (iter_dataloader_batches train_dl w Hbs) as [Hsteps Hlen].
    destruct (iter_dataloader train_dl w) as [w1 [batches|e]]; cbn [fst snd] in *;
      [|lia].
    specialize (Hlen batches eq_refl). rewrite <- Hsteps, <- Hlen. cbv beta.
    match goal with
    | |- (steps (fst (?k w1)) <= _)%nat =>
        assert (Hk : adds_at_most (length batches + length range * length batches) k)
    end.
    { apply adds_bind; [apply train_batches_adds | intros [[opt' tl] tf]].
      rewrite Hlen.
      apply (adds_weaken (0 + length range * len_dataloader train_dl)); [lia|].
      apply adds_bind; [apply adds_preserves, epoch_report_frame_steps | intros _].
      apply IH. }
    apply Hk.
Qed.

End Epochs.

Section TrainRun.
Context {B : Backend} {L : BackendLaws B}.

Lemma validation_branch_emits {Q : unit -> Prop} l train_dl val_dataloader epoch epochs
    train_loss train_f1 :
  emits Q l (validation_branch train_dl val_dataloader epoch epochs train_loss train_f1).
Proof.
  intros w w' a Hrun.
  destruct (validation_branch_raises train_dl val_dataloader epoch epochs
              train_loss train_f1 w) as (e & He & _).
  rewrite Hrun in He. discriminate.
Qed.

(** A run of the epoch loop that returns has logged, epoch after epoch, the
    calls of [epoch_events]. *)
Lemma train_epochs_emits train_dl val_dataloader epochs evaluation range :
  (0 < batch_size train_dl)%nat ->
  forall opt,
    emits any
      (concat (repeat (epoch_events (lr opt) (len_dataloader train_dl)) (length range)))
      (train_epochs opt train_dl val_dataloader epochs evaluation range).
Proof.
  intros Hbs. induction range as [|epoch range IH]; intros opt.
  - intros w w' a H. inversion H; subst. simpl. rewrite app_nil_r. now split.
  - cbn [train_epochs length repeat concat]. unfold epoch_events at 1.
    change ((EvModelTrain :: concat (repeat (batch_events (lr opt)) (len_dataloader train_dl)))
              ++ concat (repeat (epoch_events (lr opt) (len_dataloader train_dl))
                           (length range)))
      with ([EvModelTrain] ++ [] ++ []
              ++ (concat (repeat (batch_events (lr opt)) (len_dataloader train_dl))
                    ++ [] ++ concat (repeat (epoch_events (lr opt) (len_dataloader train_dl))
                                       (length range)))).
    apply (emits_bind any); [apply emits_log | intros _ _].
    apply (emits_bind any); [apply emits_preserves; frame_prim | intros _ _].
    apply (emits_bind (fun batches => length batches = len_dataloader train_dl));
      [now apply iter_dataloader_length | intros batches Hlen].
    rewrite <- Hlen.
    apply (emits_bind (fun r => lr (fst (fst r)) = lr opt));
      [apply train_batches_emits | intros [[opt' tl] tf] Hlr].
    simpl in Hlr. rewrite Hlen, <- Hlr.
    apply (emits_bind any); [| intros _ _; apply IH].
    destruct evaluation.
    + apply (@validation_branch_emits any).
    + apply emits_preserves. unfold plain_branch.
      apply preserves_bind; [apply preserves_lift | intros tl'].
      apply preserves_bind; [apply preserves_lift | intros tf'].
      frame_prim.
Qed.

Lemma py_range_length n : length (py_range n) = Z.to_nat n.
Proof. unfold py_range. now rewrite length_map, length_seq. Qed.

Lemma train_adds train_dl val_dataloader epochs evaluation :
  (0 < batch_size train_dl)%nat ->
  adds_at_most (Z.to_nat epochs * len_dataloader train_dl)
    (train train_dl val_dataloader epochs evaluation).
Proof.
  intros Hbs. unfold train.
  apply (adds_weaken (0 + Z.to_nat epochs * len_dataloader train_dl)); [lia|].
  apply adds_bind; [apply adds_preserves, preserves_read | intros opt].
  rewrite <- py_range_length. now apply train_epochs_adds.
Qed.

Lemma train_emits train_dl val_dataloader epochs evaluation :
  (0 < batch_size train_dl)%nat ->
  emits any
    (concat (repeat (epoch_events learning_rate (len_dataloader train_dl))
               (Z.to_nat epochs)))
    (train train_dl val_dataloader epochs evaluation).
Proof.
  intros Hbs w w' a. unfold train, bind at 1. rewrite <- py_range_length.
  apply (train_epochs_emits train_dl val_dataloader epochs evaluation (py_range epochs) Hbs
           (mkOptimizer learning_rate (AdamW_init (params w) learning_rate))).
Qed.

Lemma update_count_batches rate n :
  update_count (concat (repeat (batch_events rate) n)) = n.
Proof.
  induction n as [|n IH]; [reflexivity|].
  cbn [repeat concat]. rewrite update_count_app, IH. reflexivity.
Qed.

Lemma update_count_epochs rate n e :
  update_count (concat (repeat (epoch_events rate n) e)) = (e * n)%nat.
Proof.
  induction e as [|e IH]; [reflexivity|].
  cbn [repeat concat]. rewrite update_count_app, IH. unfold epoch_events.
  change (EvModelTrain :: concat (repeat (batch_events rate) n))
    with ([EvModelTrain] ++ concat (repeat (batch_events rate) n)).
  rewrite update_count_app, update_count_batches. simpl. lia.
Qed.

End TrainRun.

(** C4. A run of [train] for [epochs] epochs over a loader makes at most
    [epochs * len(train_dataloader)] parameter updates, however it ends; and
    a run that returns has made, in every epoch and for every batch in turn,
    exactly: gradients cleared, one forward pass, the cross-entropy loss, one
    backward pass, one optimizer step at the fixed rate 5e-5 - so exactly
    [epochs * len(train_dataloader)] updates. *)
Theorem train_update_count_bounded {B : Backend} {L : BackendLaws B}
    (w : World) (train_dl : DataLoader) (val_dataloader : option DataLoader)
    (epochs : Z) (evaluation : bool) :
  0 <= epochs ->
  (0 < batch_size train_dl)%nat ->
  let run := train train_dl val_dataloader epochs evaluation w in
  let n := len_dataloader train_dl in
  Z.of_nat (update_count (trace (fst run)))
    <= Z.of_nat (update_count (trace w)) + epochs * Z.of_nat n
  /\ (snd run = Ok tt ->
      trace (fst run)
        = trace w ++ concat (repeat
            (EvModelTrain ::
               concat (repeat [EvZeroGrad; EvForward true; EvLoss; EvBackward;
                               EvStep (5 # 100000)] n))
            (Z.to_nat epochs))
      /\ Z.of_nat (update_count (trace (fst run)))
         = Z.of_nat (update_count (trace w)) + epochs * Z.of_nat n).
Proof.
  intros Hepochs Hbs run n. split.
  - pose proof (train_adds train_dl val_dataloader epochs evaluation Hbs w) as H.
    unfold steps in H. fold run in H. fold n in H. nia.
  - intros Hok.
    destruct (train_emits train_dl val_dataloader epochs evaluation Hbs w (fst run) tt)
      as [Ht _].
    { fold run. destruct run as [w' r]. simpl in *. now subst r. }
    split; [exact Ht|].
    rewrite Ht, update_count_app, update_count_epochs. fold n. nia.
Qed.

Lemma train_update_count_bounded_witness :
  Z.of_nat (update_count (trace (fst (train Stub.random_loader
                                        None 2 false Stub.world0))))
    <= 0 + 2 * 3
  /\ update_count (trace (fst (train Stub.random_loader
                                 None 2 false Stub.world0))) = 6%nat.
Proof.
  destruct (@train_update_count_bounded Stub.backend stub_laws Stub.world0
              Stub.random_loader None 2 false)
    as [Hle Hok]; [lia | simpl; lia |].
  split; [exact Hle|].
  destruct (Hok ltac:(vm_compute; reflexivity)) as [_ Heq].
  apply Nat2Z.inj. exact Heq.
Defined.

Lemma forward_logits_shape_witness :
  exists logits w',
    forward [[101; 2769]] [[1; 1]] Stub.script_world = (w', Ok logits)
    /\ shape2 logits 1 10.
Proof.
  destruct (@forward_logits_shape Stub.backend stub_laws "bert-base-chinese" 10 768 256
              0%nat Stub.script_world [[101; 2769]] [[1; 1]] 1%nat 2%nat eq_refl)
    as (so & lo & h_n & c_n & fw & bw & pooled & dropped & logits & w' & H);
    [lia | lia | repeat constructor | repeat constructor |].
  exists logits, w'. split; apply H.
Defined.

Lemma evaluate_twice_identical_witness :
  snd (evaluate (Some Stub.sequential_loader)
         (fst (evaluate (Some Stub.sequential_loader)
                 Stub.world0)))
  = snd (evaluate (Some Stub.sequential_loader) Stub.world0).
Proof.
  exact (proj1 (proj2 (@evaluate_twice_identical Stub.backend Stub.world0
                         Stub.sequential_loader eq_refl))).
Defined.

(** ** Validation during training *)

Section Validation.
Context {B : Backend}.

Lemma never_returns_bind_l {A C} (m : M A) (k : A -> M C) :
  never_returns m -> never_returns (bind m k).
Proof.
  intros Hm w. unfold bind. specialize (Hm w).
  destruct (m w) as [w' [a|e]]; simpl in *; [discriminate | reflexivity].
Qed.

Lemma never_returns_bind_r {A C} (m : M A) (k : A -> M C) :
  (forall a, never_returns (k a)) -> never_returns (bind m k).
Proof.
  intros Hk w. unfold bind.
  destruct (m w) as [w' [a|e]]; simpl; [apply Hk | reflexivity].
Qed.

(** With [evaluation=True] the first epoch already raises: [train] expects a
    pair from [evaluate], which returns [None]. *)
Lemma train_with_evaluation_never_returns train_dl val_dataloader epochs :
  1 <= epochs ->
  never_returns (train train_dl val_dataloader epochs true).
Proof.
  intros Hepochs. unfold train. apply never_returns_bind_r. intros opt.
  unfold py_range. destruct (Z.to_nat epochs) as [|n] eqn:En; [lia|].
  cbn [seq map train_epochs].
  apply never_returns_bind_r; intros _.
  apply never_returns_bind_r; intros _.
  apply never_returns_bind_r; intros batches.
  apply never_returns_bind_r; intros [[opt' tl] tf].
  apply never_returns_bind_l. intros w.
  destruct (validation_branch_raises train_dl val_dataloader (Z.of_nat 0) epochs tl tf w)
    as (e & He & _).
  now rewrite He.
Qed.

End Validation.

(** C1, evaluated on a run. [evaluate] prints its report and returns [None],
    never a (loss, F1) pair: with validation enabled, [train] cannot unpack
    that value and the run stops with a TypeError after the first epoch's
    batches and the evaluation it asked for. *)
Example train_with_validation_fails :
  snd (evaluate (Some Stub.sequential_loader) Stub.world0)
  = Ok PyNone
  /\ snd (train Stub.sequential_loader
            (Some Stub.sequential_loader) 4 true Stub.world0)
     = Raise TypeError
  /\ update_count
       (trace (fst (train Stub.sequential_loader
                      (Some Stub.sequential_loader) 4 true
                      Stub.world0))) = 3%nat.
Proof. vm_compute. repeat split. Qed.

(** * Further properties of the code *)

(** ** The forward pass *)

(** X1. [BERTBiLSTM.forward] writes nothing but the random generator: the
    parameters, the gradients, the mode flag, standard output and the call
    log are the same after it, whether it returns or raises; and when the
    model is in evaluation mode the generator is not touched either. *)
Theorem forward_writes_only_generator {B : Backend}
    (ids mask : list (list Z)) (w : World) :
  let w' := fst (forward ids mask w) in
  params w' = params w /\ grad w' = grad w /\ training w' = training w
  /\ stdout w' = stdout w /\ trace w' = trace w
  /\ (training w = false -> w' = w).
Proof.
  cbv zeta. repeat split.
  - apply (forward_frame params); auto with frame.
  - apply (forward_frame grad); auto with frame.
  - apply (forward_frame training); auto with frame.
  - apply (forward_frame stdout); auto with frame.
  - apply (forward_frame trace); auto with frame.
  - apply forward_eval_world.
Qed.

Section Predictions.
Context {B : Backend}.

Lemma argmax_from_bounds row : forall best best_i i,
  0 <= best_i < i ->
  0 <= argmax_from best best_i i row < i + Z.of_nat (length row).
Proof.
  induction row as [|v row IH]; intros best best_i i Hi; simpl argmax_from.
  - simpl. lia.
  - cbn [length]. destruct (rltb best v).
    + specialize (IH v i (i + 1)). lia.
    + specialize (IH best best_i (i + 1)). lia.
Qed.

Lemma argmax_dim1_bounds n logits : forall predicted,
  Forall (fun row => length row = n) logits ->
  argmax_dim1 logits = Ok predicted ->
  length predicted = length logits
  /\ Forall (fun p => 0 <= p < Z.of_nat n) predicted.
Proof.
  induction logits as [|row logits IH]; intros predicted Hrows Hrun; simpl in Hrun.
  - inversion Hrun; subst. split; [reflexivity | constructor].
  - inversion Hrows as [|? ? Hrow Hrest]; subst.
    destruct row as [|v row]; simpl in Hrun; [discriminate|].
    destruct (argmax_dim1 logits) as [rest|]; [|discriminate].
    inversion Hrun; subst. destruct (IH rest Hrest eq_refl) as [Hlen Hall].
    split; [simpl; now rewrite Hlen|]. constructor; [|exact Hall].
    pose proof (argmax_from_bounds row v 0 1 ltac:(lia)) as Hb.
    simpl length. lia.
Qed.

(** What [forward] returns is the linear head applied to some rows. *)
Lemma forward_returns_linear ids mask w w' logits :
  forward ids mask w = (w', Ok logits) ->
  exists dropped, logits = map (linear_row (classifier (params w))) dropped.
Proof.
  unfold forward, bind, lift, ret.
  destruct (bert_forward (bert (params w)) ids mask) as [out|]; [|discriminate].
  destruct (lstm_forward (lstm (params w)) out) as [[lo [h_n c_n]]|]; [|discriminate].
  destruct (getitem_neg h_n 2) as [fw|]; [|discriminate].
  destruct (getitem_neg h_n 1) as [bw|]; [|discriminate].
  destruct (cat_dim1 fw bw) as [pooled|]; [|discriminate].
  destruct (dropout pooled w) as [w1 [dropped|]]; [|discriminate].
  unfold linear.
  destruct (forallb _ dropped); [|discriminate].
  intros H; inversion H; subst. now exists dropped.
Qed.

End Predictions.

(** X2. Every label predicted from the logits of a classifier built with
    [num_labels] classes is a class index: there is one prediction per row
    of logits and each lies in [0, num_labels). *)
Theorem predictions_in_range {B : Backend}
    (bert_path : string) (num_labels hidden_size lstm_hidden_size : nat) (g : Rng)
    (w w' : World) (ids mask : list (list Z)) (logits : list (list R))
    (predicted : list Z) :
  params w = fst (BERTBiLSTM_init bert_path num_labels hidden_size lstm_hidden_size g) ->
  forward ids mask w = (w', Ok logits) ->
  argmax_dim1 logits = Ok predicted ->
  length predicted = length logits
  /\ Forall (fun p => 0 <= p < Z.of_nat num_labels) predicted.
Proof.
  intros Hp Hrun Hmax.
  destruct (forward_returns_linear ids mask w w' logits Hrun) as [dropped ->].
  destruct (BERTBiLSTM_init_fields bert_path num_labels hidden_size lstm_hidden_size g)
    as (_ & _ & [g1 Hcls]).
  rewrite <- Hp in Hcls.
  destruct (nn_Linear_shape (2 * lstm_hidden_size) num_labels g1)
    as (_ & _ & [Sw _] & Sb).
  rewrite <- Hcls in Sw, Sb.
  apply (argmax_dim1_bounds num_labels); [|exact Hmax].
  apply Forall_map. apply Forall_forall. intros row _.
  unfold linear_row. rewrite length_map, length_combine. lia.
Qed.

Lemma predictions_in_range_witness :
  forward [[5; 6]; [7; 8]] [[1; 1]; [1; 1]] Stub.world0
    = (@mkWorld Stub.backend Stub.model0 None true 19%nat [] [],
       Ok [[3; -20; 13; -8; -18; 4; -24; 9; -7; -17];
           [5; -28; 17; -10; -24; 6; -32; 13; -9; -23]])
  /\ length [2; 2] = 2%nat
  /\ Forall (fun p => 0 <= p < 10) [2; 2].
Proof.
  assert (E : forward [[5; 6]; [7; 8]] [[1; 1]; [1; 1]] Stub.world0
              = (@mkWorld Stub.backend Stub.model0 None true 19%nat [] [],
                 Ok [[3; -20; 13; -8; -18; 4; -24; 9; -7; -17];
                     [5; -28; 17; -10; -24; 6; -32; 13; -9; -23]]))
    by (vm_compute; reflexivity).
  split; [exact E|].
  exact (@predictions_in_range Stub.backend "bert-base-chinese" 10 768 3 0%nat
           Stub.world0 _ _ _ _ [2; 2] eq_refl E eq_refl).
Defined.

(** ** Ingestion of a label that is not an integer *)

Lemma pyint_raises_ValueError py s e : pyint py s = Raise e -> e = ValueError.
Proof.
  unfold pyint.
  destruct (match skip_spaces (to_ascii py s) with
            | [] => _ | _ => _ end) as [n|]; intros H; inversion H; reflexivity.
Qed.

Lemma lines_loop_bad_label py pre line post : forall text label,
  forallb (well_formed_line py) pre = true ->
  has_tab line = true ->
  is_ok (pyint py (second_field line)) = false ->
  lines_loop py (pre ++ line :: post) text label = Raise ValueError.
Proof.
  induction pre as [|l pre IH]; intros text label Hwf Htab Hint.
  - simpl app. rewrite lines_loop_step, Htab.
    destruct (pyint py (second_field line)) as [n|e] eqn:En; [discriminate|].
    now rewrite (pyint_raises_ValueError _ _ _ En).
  - simpl in Hwf. apply andb_true_iff in Hwf as [Hl Hwf].
    unfold well_formed_line in Hl. apply andb_true_iff in Hl as [Hlt Hli].
    simpl app. rewrite lines_loop_step, Hlt.
    destruct (pyint py (second_field l)) as [n|e]; [|discriminate].
    now apply IH.
Qed.

(** X3. A line that has a tab but whose label field [int()] refuses is
    fatal as well: when every earlier line is accepted,
    [convert_to_text_label] raises the ValueError of [int(split_cnt[1])] on
    that line, whatever follows it. *)
Theorem convert_to_text_label_bad_label
    (py : Interpreter) (fs : filesystem) (filename : string) (content : pystr)
    (pre : list pystr) (line : pystr) (post : list pystr) :
  fs filename = Some content ->
  readlines content = pre ++ line :: post ->
  forallb (well_formed_line py) pre = true ->
  has_tab line = true ->
  is_ok (pyint py (second_field line)) = false ->
  convert_to_text_label py fs filename = Raise ValueError.
Proof.
  intros Hfile Hlines Hpre Htab Hint. unfold convert_to_text_label.
  rewrite Hfile, Hlines. now apply lines_loop_bad_label.
Qed.

Lemma convert_to_text_label_bad_label_witness :
  convert_to_text_label Samples.cpython MoreSamples.bad_label_fs "labels.txt"
  = Raise ValueError.
Proof.
  exact (convert_to_text_label_bad_label Samples.cpython MoreSamples.bad_label_fs
           "labels.txt" _
           [Samples.line (Samples.str "first") (Samples.str "2")]
           (Samples.line (Samples.str "second") (Samples.str "two"))
           [Samples.line (Samples.str "third") (Samples.str "3")]
           eq_refl eq_refl eq_refl eq_refl eq_refl).
Defined.

(** ** Runs of the training loop *)

Section TrainFacts.
Context {B : Backend}.

Lemma adds_bind_stop {A C} n (m : M A) (k : A -> M C) :
  adds_at_most n m -> never_returns m -> adds_at_most n (bind m k).
Proof.
  intros Hm Hnever w. unfold bind. specialize (Hm w). specialize (Hnever w).
  destruct (m w) as [w' [a|e]]; simpl in *; [discriminate | exact Hm].
Qed.

Lemma validation_branch_never_returns train_dl val_dataloader epoch epochs tl tf :
  never_returns (validation_branch train_dl val_dataloader epoch epochs tl tf).
Proof.
  intros w.
  destruct (validation_branch_raises train_dl val_dataloader epoch epochs tl tf w)
    as (e & He & _).
  now rewrite He.
Qed.

(** With validation on, the epoch loop stops in its first epoch: whatever
    follows the validation branch is never run. *)
Lemma first_epoch_adds {L : BackendLaws B} train_dl val_dataloader epochs epoch range opt :
  (0 < batch_size train_dl)%nat ->
  adds_at_most (len_dataloader train_dl)
    (train_epochs opt train_dl val_dataloader epochs true (epoch :: range)).
Proof.
  intros Hbs. cbn [train_epochs].
  apply (adds_weaken (0 + (0 + len_dataloader train_dl))); [lia|].
  apply adds_bind; [now apply adds_preserves, log_frame_steps | intros _].
  apply adds_bind; [apply adds_preserves; frame_prim | intros _].
  intros w. unfold bind at 1.
  destruct (iter_dataloader_batches train_dl w Hbs) as [Hsteps Hlen].
  destruct (iter_dataloader train_dl w) as [w1 [batches|e]]; cbn [fst snd] in *;
    [|lia].
  specialize (Hlen batches eq_refl). rewrite <- Hsteps, <- Hlen. cbv beta.
  match goal with
  | |- (steps (fst (?k w1)) <= _)%nat =>
      assert (Hk : adds_at_most (length batches + 0) k)
  end.
  { apply adds_bind; [apply train_batches_adds | intros [[opt' tl] tf]].
    apply adds_bind_stop.
    - apply adds_preserves, validation_branch_frame_steps.
    - apply validation_branch_never_returns. }
  specialize (Hk w1). lia.
Qed.

(** A pass over a loader without examples has no batch. *)
Lemma iter_dataloader_empty {L : BackendLaws B} dl w :
  dataset dl = [] -> snd (iter_dataloader dl w) = Ok [].
Proof.
  intros Hds. unfold iter_dataloader, bind, lift, sampler_indices. rewrite Hds.
  cbn [length]. destruct (sampler dl).
  - unfold with_rng. pose proof (randperm_perm (rng w) 0) as Hperm.
    destruct (randperm (rng w) 0) as [idx g1]. simpl in Hperm.
    apply Permutation_sym, Permutation_nil in Hperm. subst idx. reflexivity.
  - reflexivity.
Qed.

Lemma len_dataloader_empty dl : dataset dl = [] -> len_dataloader dl = 0%nat.
Proof.
  intros Hds. unfold len_dataloader. rewrite Hds. simpl.
  destruct (batch_size dl) as [|n]; [reflexivity|].
  apply Nat.div_small. lia.
Qed.

End TrainFacts.

(** X4. With [evaluation=True] and at least one epoch, [train] never
    returns, and it stops within the first epoch: the run has made at most
    [len(train_dataloader)] optimizer steps, however many epochs were asked
    for. *)
Theorem train_with_evaluation_stops_in_first_epoch {B : Backend} {L : BackendLaws B}
    (w : World) (train_dl : DataLoader) (val_dataloader : option DataLoader)
    (epochs : Z) :
  1 <= epochs ->
  (0 < batch_size train_dl)%nat ->
  let run := train train_dl val_dataloader epochs true w in
  (exists e, snd run = Raise e)
  /\ (update_count (trace (fst run))
      <= update_count (trace w) + len_dataloader train_dl)%nat.
Proof.
  intros Hepochs Hbs run. split.
  - pose proof (train_with_evaluation_never_returns train_dl val_dataloader epochs
                  Hepochs w) as Hnever.
    fold run in Hnever. destruct (snd run) as [[]|e]; [discriminate | now exists e].
  - subst run. unfold train, bind at 1. cbn [fst snd].
    unfold py_range. destruct (Z.to_nat epochs) as [|n] eqn:En; [lia|].
    cbn [seq map].
    apply (first_epoch_adds train_dl val_dataloader epochs (Z.of_nat 0)
             (map Z.of_nat (seq 1 n)) _ Hbs w).
Qed.

Lemma train_with_evaluation_stops_in_first_epoch_witness :
  (exists e, snd (train Stub.random_loader (Some Stub.sequential_loader) 4 true
                    Stub.world0) = Raise e)
  /\ (update_count (trace (fst (train Stub.random_loader (Some Stub.sequential_loader)
                                  4 true Stub.world0))) <= 0 + 3)%nat.
Proof.
  exact (@train_with_evaluation_stops_in_first_epoch Stub.backend stub_laws Stub.world0
           Stub.random_loader (Some Stub.sequential_loader) 4
           ltac:(lia) ltac:(simpl; lia)).
Defined.

(** X5. Training over a loader without examples fails at the end of the
    first epoch: [train_loss / len(train_dataloader)] divides by zero.  No
    optimizer step has been made, the parameters are untouched and nothing
    has been printed. *)
Theorem train_empty_loader_raises {B : Backend} {L : BackendLaws B}
    (w : World) (train_dl : DataLoader) (val_dataloader : option DataLoader)
    (epochs : Z) :
  dataset train_dl = [] ->
  1 <= epochs ->
  let run := train train_dl val_dataloader epochs false w in
  snd run = Raise ZeroDivisionError
  /\ params (fst run) = params w
  /\ update_count (trace (fst run)) = update_count (trace w)
  /\ stdout (fst run) = stdout w.
Proof.
  intros Hds Hepochs run.
  assert (Hrun : exists w2,
             run = (w2, Raise ZeroDivisionError)
             /\ params w2 = params w
             /\ update_count (trace w2) = update_count (trace w)
             /\ stdout w2 = stdout w).
  { subst run. unfold train, bind at 1.
    unfold py_range. destruct (Z.to_nat epochs) as [|n] eqn:En; [lia|].
    cbn [seq map train_epochs]. unfold bind at 1. cbn [log]. unfold bind at 1.
    cbn [set_training]. unfold bind at 1.
    match goal with
    | |- context [iter_dataloader train_dl ?w0] => set (w1 := w0)
    end.
    pose proof (iter_dataloader_empty train_dl w1 Hds) as Hnone.
    pose proof (iter_dataloader_frame params train_dl (fun n => rng_frame_params _) w1) as Hp.
    pose proof (iter_dataloader_frame steps train_dl (fun n => rng_frame_steps _) w1) as Hs.
    pose proof (iter_dataloader_frame stdout train_dl (fun n => rng_frame_stdout _) w1) as Ho.
    destruct (iter_dataloader train_dl w1) as [w2 r]. cbn [fst snd] in *. subst r.
    cbn [train_batches]. unfold bind at 1, ret at 1.
    unfold bind at 1, plain_branch, bind at 1, lift at 1.
    rewrite (len_dataloader_empty train_dl Hds). cbn [truediv].
    subst w1. unfold steps in Hs. cbn [params stdout trace] in Hp, Hs, Ho.
    exists w2. repeat split; [exact Hp | | exact Ho].
    rewrite Hs, update_count_app. unfold update_count at 2. simpl. lia. }
  destruct Hrun as (w2 & -> & Hp & Hs & Ho). cbn [fst snd]. auto.
Qed.

Lemma train_empty_loader_raises_witness :
  snd (train (mkDataLoader [] RandomSampler 32) None 4 false Stub.world0)
  = Raise ZeroDivisionError.
Proof.
  exact (proj1 (@train_empty_loader_raises Stub.backend stub_laws Stub.world0
                  (mkDataLoader [] RandomSampler 32) None 4 eq_refl ltac:(lia))).
Defined.

(** ** What a returning run of [train] leaves behind *)

Section TripleFacts.
Context {B : Backend}.

Lemma triple_bind {A C} (P Q R : World -> Prop) (m : M A) (k : A -> M C) :
  triple P m Q -> (forall a, triple Q (k a) R) -> triple P (bind m k) R.
Proof.
  intros Hm Hk w w' c HP. unfold bind.
  destruct (m w) as [w1 [a|e]] eqn:Em; [|discriminate].
  intros Hrun. exact (Hk a w1 w' c (Hm w w1 a HP Em) Hrun).
Qed.

Lemma triple_weaken {A} (P P' Q Q' : World -> Prop) (m : M A) :
  (forall w, P' w -> P w) -> (forall w, Q w -> Q' w) ->
  triple P m Q -> triple P' m Q'.
Proof. intros HP HQ Hm w w' a HP' Hrun. eauto. Qed.

Lemma triple_preserves {A X} (f : World -> X) (v : X) (m : M A) :
  preserves f m -> triple (fun w => f w = v) m (fun w => f w = v).
Proof.
  intros Hm w w' a Hv Hrun. specialize (Hm w). rewrite Hrun in Hm. simpl in Hm.
  congruence.
Qed.

Lemma triple_never {A} (P Q : World -> Prop) (m : M A) :
  never_returns m -> triple P m Q.
Proof.
  intros Hnever w w' a _ Hrun. specialize (Hnever w). rewrite Hrun in Hnever.
  discriminate.
Qed.

(** The writes of a pass over the training batches: the call log, the
    gradients, the parameters and the generator. *)
Lemma train_batches_frame {X} (f : World -> X) :
  (forall e, preserves f (log e)) ->
  (forall g, preserves f (set_grad g)) ->
  (forall p, preserves f (set_params p)) ->
  (forall A (g : Rng -> A * Rng), preserves f (with_rng g)) ->
  forall batches opt train_loss train_f1,
    preserves f (train_batches opt batches train_loss train_f1).
Proof.
  intros Hlog Hgrad Hparams Hrng batches.
  induction batches as [|[[ids mask] labels] rest IH]; intros opt train_loss train_f1.
  - apply preserves_ret.
  - cbn [train_batches].
    apply preserves_bind.
    { unfold zero_grad. apply preserves_bind; [apply Hlog | intros _; apply Hgrad]. }
    intros _. apply preserves_bind; [apply preserves_read | intros g0].
    apply preserves_bind; [apply Hlog | intros _].
    apply preserves_bind; [apply forward_frame; intros; apply Hrng | intros logits].
    apply preserves_bind; [apply Hlog | intros _].
    apply preserves_bind; [apply preserves_lift | intros loss].
    apply preserves_bind.
    { unfold backward. apply preserves_bind; [apply Hlog | intros _].
      intros w. apply Hgrad. }
    intros _. apply preserves_bind.
    { unfold optimizer_step. apply preserves_bind; [apply Hlog | intros _].
      intros w. destruct (grad w) as [g|]; [|reflexivity].
      destruct (AdamW_update (opt_state opt) (params w) g) as [st p].
      revert w. apply preserves_bind; [apply Hparams | intros _; apply preserves_ret]. }
    intros opt'. apply preserves_bind; [apply preserves_lift | intros predicted].
    apply IH.
Qed.

Lemma train_batches_frame_training batches opt train_loss train_f1 :
  preserves training (train_batches opt batches train_loss train_f1).
Proof. apply train_batches_frame; intros; frame_prim. Qed.

Lemma train_batches_frame_stdout batches opt train_loss train_f1 :
  preserves stdout (train_batches opt batches train_loss train_f1).
Proof. apply train_batches_frame; intros; frame_prim. Qed.

Lemma iter_dataloader_frame_training dl : preserves training (iter_dataloader dl).
Proof. apply iter_dataloader_frame; auto with frame. Qed.

Lemma iter_dataloader_frame_stdout dl : preserves stdout (iter_dataloader dl).
Proof. apply iter_dataloader_frame; auto with frame. Qed.

Lemma plain_branch_frame_training train_dl epoch epochs tl tf :
  preserves training (plain_branch train_dl epoch epochs tl tf).
Proof.
  unfold plain_branch.
  apply preserves_bind; [apply preserves_lift | intros tl'].
  apply preserves_bind; [apply preserves_lift | intros tf'].
  frame_prim.
Qed.

(** A returning epoch loop over at least one epoch ends in training mode:
    every epoch starts with [model.train()] and nothing after it writes the
    flag (the validation branch, which would, never returns). *)
Lemma train_epochs_mode train_dl val_dataloader epochs evaluation range :
  forall epoch opt,
    triple (fun _ => True)
      (train_epochs opt train_dl val_dataloader epochs evaluation (epoch :: range))
      (fun w => training w = true).
Proof.
  induction range as [|next range IH]; intros epoch opt; cbn [train_epochs].
  - apply (triple_bind _ (fun _ => True)); [intros w w' a _ _; exact I | intros _].
    apply (triple_bind _ (fun w => training w = true));
      [intros w w' a _ H; inversion H; reflexivity | intros _].
    apply (triple_bind _ (fun w => training w = true));
      [apply triple_preserves, iter_dataloader_frame_training | intros batches].
    apply (triple_bind _ (fun w => training w = true));
      [apply triple_preserves, train_batches_frame_training | intros [[opt' tl] tf]].
    apply (triple_bind _ (fun w => training w = true)).
    + destruct evaluation.
      * apply triple_never, validation_branch_never_returns.
      * apply triple_preserves, plain_branch_frame_training.
    + intros _. apply triple_preserves, preserves_ret.
  - apply (triple_bind _ (fun _ => True)); [intros w w' a _ _; exact I | intros _].
    apply (triple_bind _ (fun _ => True)); [intros w w' a _ _; exact I | intros _].
    apply (triple_bind _ (fun _ => True)); [intros w w' a _ _; exact I | intros batches].
    apply (triple_bind _ (fun _ => True));
      [intros w w' a _ _; exact I | intros [[opt' tl] tf]].
    apply (triple_bind _ (fun _ => True)); [intros w w' a _ _; exact I | intros _].
    apply IH.
Qed.

(** What the [else:] branch prints when it returns. *)
Lemma plain_branch_prints train_dl epoch epochs tl tf s :
  triple (fun w => stdout w = s) (plain_branch train_dl epoch epochs tl tf)
    (fun w => exists line, stdout w = s ++ [line]
                           /\ epoch_header line = Some (epoch + 1, epochs, false)).
Proof.
  intros w w' a Hs. unfold plain_branch, bind, lift, print.
  destruct (truediv tl (len_dataloader train_dl)) as [tl'|]; [|discriminate].
  destruct (truediv tf (len_dataloader train_dl)) as [tf'|]; [|discriminate].
  intros H; inversion H; subst. simpl. eexists. split; reflexivity.
Qed.

(** A returning epoch loop without validation prints one line per epoch of
    [range], in order. *)
Lemma train_epochs_prints train_dl val_dataloader epochs range :
  forall opt s,
    triple (fun w => stdout w = s)
      (train_epochs opt train_dl val_dataloader epochs false range)
      (fun w => exists out,
           stdout w = s ++ out
           /\ map epoch_header out = map (fun e => Some (e + 1, epochs, false)) range).
Proof.
  induction range as [|epoch range IH]; intros opt s; cbn [train_epochs].
  - intros w w' a Hs H. inversion H; subst. exists []. now rewrite app_nil_r.
  - apply (triple_bind _ (fun w => stdout w = s));
      [apply triple_preserves; frame_prim | intros _].
    apply (triple_bind _ (fun w => stdout w = s));
      [apply triple_preserves; frame_prim | intros _].
    apply (triple_bind _ (fun w => stdout w = s));
      [apply triple_preserves, iter_dataloader_frame_stdout | intros batches].
    apply (triple_bind _ (fun w => stdout w = s));
      [apply triple_preserves, train_batches_frame_stdout | intros [[opt' tl] tf]].
    eapply triple_bind; [apply plain_branch_prints | intros _].
    intros w w' a (line & Hs & Hline) Hrun.
    destruct (IH opt' (s ++ [line]) w w' a Hs Hrun) as (out & Hout & Hheaders).
    exists (line :: out). split.
    + rewrite Hout. now rewrite <- app_assoc.
    + simpl. now rewrite Hline, Hheaders.
Qed.

End TripleFacts.

(** X6. When [train] returns after at least one epoch, the model is left in
    training mode (dropout active): every epoch begins with [model.train()]
    and nothing switches the mode back, so inference after [train] needs an
    explicit switch such as the one [evaluate] makes. *)
Theorem train_leaves_training_mode {B : Backend}
    (w : World) (train_dl : DataLoader) (val_dataloader : option DataLoader)
    (epochs : Z) (evaluation : bool) :
  1 <= epochs ->
  snd (train train_dl val_dataloader epochs evaluation w) = Ok tt ->
  training (fst (train train_dl val_dataloader epochs evaluation w)) = true.
Proof.
  intros Hepochs Hok.
  destruct (train train_dl val_dataloader epochs evaluation w) as [w' r] eqn:Erun.
  simpl in *. subst r. revert Erun. unfold train, bind at 1.
  unfold py_range. destruct (Z.to_nat epochs) as [|n] eqn:En; [lia|].
  cbn [seq map]. intros Erun.
  exact (train_epochs_mode train_dl val_dataloader epochs evaluation
           (map Z.of_nat (seq 1 n)) (Z.of_nat 0) _ w w' tt I Erun).
Qed.

Lemma train_leaves_training_mode_witness :
  training (fst (train Stub.random_loader None 2 false MoreStub.script_eval_start)) = true.
Proof.
  exact (@train_leaves_training_mode Stub.backend MoreStub.script_eval_start
           Stub.random_loader None 2 false ltac:(lia)
           ltac:(vm_compute; reflexivity)).
Defined.

(** X7. A run of [train] without validation that returns has printed
    exactly one line per epoch, in order: the k-th line is numbered k out of
    [epochs] and carries no validation figures.  With [epochs <= 0] nothing
    is printed. *)
Theorem train_prints_one_line_per_epoch {B : Backend}
    (w : World) (train_dl : DataLoader) (val_dataloader : option DataLoader)
    (epochs : Z) :
  snd (train train_dl val_dataloader epochs false w) = Ok tt ->
  exists out,
    stdout (fst (train train_dl val_dataloader epochs false w)) = stdout w ++ out
    /\ length out = Z.to_nat epochs
    /\ map epoch_header out
       = map (fun k => Some (Z.of_nat k + 1, epochs, false)) (seq 0 (Z.to_nat epochs)).
Proof.
  intros Hok.
  destruct (train train_dl val_dataloader epochs false w) as [w' r] eqn:Erun.
  simpl in *. subst r. revert Erun. unfold train, bind at 1. intros Erun.
  destruct (train_epochs_prints train_dl val_dataloader epochs (py_range epochs) _
              (stdout w) w w' tt eq_refl Erun) as (out & Hout & Hheaders).
  unfold py_range in Hheaders. rewrite map_map in Hheaders.
  exists out. repeat split; auto.
  rewrite <- (length_map epoch_header), Hheaders, length_map. apply length_seq.
Qed.

Lemma train_prints_one_line_per_epoch_witness :
  exists out,
    stdout (fst (train Stub.random_loader None 2 false Stub.world0)) = out
    /\ length out = 2%nat
    /\ map epoch_header out = [Some (1, 2, false); Some (2, 2, false)].
Proof.
  destruct (@train_prints_one_line_per_epoch Stub.backend Stub.world0
              Stub.random_loader None 2 ltac:(vm_compute; reflexivity))
    as (out & H1 & H2 & H3).
  exists out. repeat split; assumption.
Defined.

(** ** The printed confusion matrix *)

Module SklearnFacts.
Import Sklearn.
#[local] Open Scope Z_scope.

Lemma insert_uniq_In x y l : In y (insert_uniq x l) <-> y = x \/ In y l.
Proof.
  induction l as [|z l IH]; simpl.
  - intuition.
  - destruct (x <? z) eqn:Hlt; [simpl; intuition|].
    destruct (x =? z) eqn:Heq.
    + apply Z.eqb_eq in Heq. subst z. simpl. intuition.
    + simpl. rewrite IH. intuition.
Qed.

Lemma unique_labels_In y_true y_pred y :
  In y (unique_labels y_true y_pred) <-> In y (y_true ++ y_pred).
Proof.
  unfold unique_labels. induction (y_true ++ y_pred) as [|x l IH]; simpl.
  - reflexivity.
  - rewrite insert_uniq_In, IH. intuition.
Qed.

Lemma insert_uniq_above a x l :
  a < x -> Forall (Z.lt a) l -> Forall (Z.lt a) (insert_uniq x l).
Proof.
  intros Hax Hall. apply Forall_forall. intros y Hy.
  apply insert_uniq_In in Hy as [->|Hy]; [exact Hax|].
  rewrite Forall_forall in Hall. now apply Hall.
Qed.

(** The labels are kept in strictly ascending order. *)
Lemma insert_uniq_sorted x l :
  StronglySorted Z.lt l -> StronglySorted Z.lt (insert_uniq x l).
Proof.
  induction l as [|z l IH]; intros Hs; simpl.
  - repeat constructor.
  - inversion Hs as [|? ? Hl Hz]; subst.
    destruct (x <? z) eqn:Hlt.
    + apply Z.ltb_lt in Hlt. constructor; [exact Hs|].
      constructor; [exact Hlt|]. eapply Forall_impl; [|exact Hz]. intros; lia.
    + destruct (x =? z) eqn:Heq; [exact Hs|].
      apply Z.ltb_ge in Hlt. apply Z.eqb_neq in Heq.
      constructor; [now apply IH|]. apply insert_uniq_above; [lia | exact Hz].
Qed.

Lemma unique_labels_sorted y_true y_pred :
  StronglySorted Z.lt (unique_labels y_true y_pred).
Proof.
  unfold unique_labels. induction (y_true ++ y_pred) as [|x l IH]; simpl.
  - constructor.
  - now apply insert_uniq_sorted.
Qed.

Lemma sorted_NoDup l : StronglySorted Z.lt l -> NoDup l.
Proof.
  induction 1 as [|a l Hs IH Hall]; constructor; [|exact IH].
  intros Hin. rewrite Forall_forall in Hall. specialize (Hall a Hin). lia.
Qed.

Lemma unique_labels_NoDup y_true y_pred : NoDup (unique_labels y_true y_pred).
Proof. apply sorted_NoDup, unique_labels_sorted. Qed.

Lemma list_sum_map_add {A} (f g : A -> nat) l :
  list_sum (map (fun a => f a + g a)%nat l)
  = (list_sum (map f l) + list_sum (map g l))%nat.
Proof. induction l as [|a l IH]; simpl; lia. Qed.

Lemma list_sum_cons (a : nat) l : list_sum (a :: l) = (a + list_sum l)%nat.
Proof. reflexivity. Qed.

Lemma list_sum_indicator (k : Z) (labels : list Z) :
  NoDup labels -> In k labels ->
  list_sum (map (fun a => if k =? a then 1%nat else 0%nat) labels) = 1%nat.
Proof.
  induction 1 as [|a l Hnot Hnd IH]; intros Hin; [contradiction|].
  cbn [map]. rewrite list_sum_cons. destruct Hin as [->|Hin].
  - rewrite Z.eqb_refl.
    assert (Hzero : list_sum (map (fun a => if k =? a then 1%nat else 0%nat) l) = 0%nat).
    { clear IH Hnd. induction l as [|b l IHl]; [reflexivity|].
      cbn [map]. rewrite list_sum_cons.
      destruct (k =? b) eqn:E.
      - apply Z.eqb_eq in E. subst b. exfalso. apply Hnot. now left.
      - rewrite IHl; [reflexivity|]. intros H. apply Hnot. now right. }
    lia.
  - destruct (k =? a) eqn:E.
    + apply Z.eqb_eq in E. subst a. contradiction.
    + now rewrite IH.
Qed.

(** Samples sorted by a key that takes its values among distinct labels:
    the counts per label add up to the number of samples. *)
Lemma count_by_key {A} (key : A -> Z) labels (xs : list A) :
  NoDup labels ->
  (forall x, In x xs -> In (key x) labels) ->
  list_sum (map (fun a => length (filter (fun x => key x =? a) xs)) labels)
  = length xs.
Proof.
  intros Hnd. induction xs as [|x xs IH]; intros Hkeys.
  - simpl. clear Hnd Hkeys. induction labels as [|a labels IHl]; [reflexivity|].
    exact IHl.
  - rewrite (map_ext _ (fun a => Nat.add (if key x =? a then 1%nat else 0%nat)
                                         (length (filter (fun x0 => key x0 =? a) xs)))).
    + rewrite list_sum_map_add, list_sum_indicator, IH; auto.
      * intros y Hy. apply Hkeys. now right.
      * apply Hkeys. now left.
    + intros a. simpl. now destruct (key x =? a).
Qed.

Lemma filter_andb {A} (p q : A -> bool) l :
  filter (fun x => p x && q x) l = filter q (filter p l).
Proof.
  induction l as [|x l IH]; [reflexivity|]. simpl.
  destruct (p x); simpl; [destruct (q x)|]; now rewrite IH.
Qed.

Lemma filter_fst_length (a : Z) (y_true y_pred : list Z) :
  length y_true = length y_pred ->
  length (filter (fun p => fst p =? a) (combine y_true y_pred)) = count_label y_true a.
Proof.
  unfold count_label. revert y_pred.
  induction y_true as [|t y_true IH]; intros [|p y_pred] Hlen; try discriminate;
    [reflexivity|].
  simpl. injection Hlen as Hlen. destruct (t =? a); simpl; now rewrite IH.
Qed.

(** Row [a] of the matrix adds up to the number of samples of true label [a]. *)
Lemma confusion_row_sum y_true y_pred a :
  length y_true = length y_pred ->
  list_sum (map (fun b => count_pairs y_true y_pred a b) (unique_labels y_true y_pred))
  = count_label y_true a.
Proof.
  intros Hlen. unfold count_pairs.
  rewrite (map_ext _ (fun b => length (filter (fun p => snd p =? b)
                                         (filter (fun p => fst p =? a)
                                                 (combine y_true y_pred))))).
  - rewrite (count_by_key snd); [now apply filter_fst_length | apply unique_labels_NoDup |].
    intros [t p] Hin. apply filter_In in Hin as [Hin _].
    apply unique_labels_In, in_or_app. right. eapply in_combine_r; eauto.
  - intros b. now rewrite filter_andb.
Qed.

Lemma support_total y_true y_pred :
  list_sum (map (count_label y_true) (unique_labels y_true y_pred)) = length y_true.
Proof.
  unfold count_label. apply (count_by_key (fun v => v)); [apply unique_labels_NoDup|].
  intros x Hin. apply unique_labels_In, in_or_app. now left.
Qed.

End SklearnFacts.

Section ReportFacts.
Context {B : Backend}.

Lemma map_fst_combine_eq {A C} (l1 : list A) (l2 : list C) :
  length l1 = length l2 ->
  map fst (combine l1 l2) = l1 /\ map snd (combine l1 l2) = l2.
Proof.
  revert l2. induction l1 as [|a l1 IH]; intros [|c l2] Hlen; try discriminate;
    [now split|].
  injection Hlen as Hlen. destruct (IH l2 Hlen) as [H1 H2]. simpl.
  now rewrite H1, H2.
Qed.

(** The report and the matrix of labels that pass the checks of the
    report: every class row carries its name, row [a] of the matrix adds up
    to the support of class [a], and the whole matrix to the number of
    samples. *)
Lemma report_values y_true y_pred rows cm :
  Sklearn.classification_report y_true y_pred target_names = Ok rows ->
  Sklearn.confusion_matrix y_true y_pred = Ok cm ->
  length y_true = length y_pred
  /\ map row_name rows = target_names
  /\ shape2 cm 10 10
  /\ map (@list_sum) cm = map row_support rows
  /\ list_sum (map (@list_sum) cm) = length y_true.
Proof.
  unfold Sklearn.classification_report, Sklearn.confusion_matrix,
    Sklearn.check_targets.
  destruct (length y_true =? length y_pred)%nat eqn:Elen; [|discriminate].
  apply Nat.eqb_eq in Elen.
  destruct (length (Sklearn.unique_labels y_true y_pred) =? length target_names)%nat
    eqn:Eten; [|discriminate].
  apply Nat.eqb_eq in Eten. simpl negb. cbv iota.
  intros Hrows Hcm. inversion Hrows; subst rows. inversion Hcm; subst cm. clear Hrows Hcm.
  destruct (map_fst_combine_eq (Sklearn.unique_labels y_true y_pred) target_names Eten)
    as [Hfst Hsnd].
  assert (Hsums : map (@list_sum)
                    (map (fun a => map (fun b => Sklearn.count_pairs y_true y_pred a b)
                                       (Sklearn.unique_labels y_true y_pred))
                         (Sklearn.unique_labels y_true y_pred))
                  = map (Sklearn.count_label y_true) (Sklearn.unique_labels y_true y_pred)).
  { rewrite map_map. apply map_ext. intros a.
    now apply SklearnFacts.confusion_row_sum. }
  repeat split.
  - exact Elen.
  - rewrite map_map. simpl. exact Hsnd.
  - now rewrite length_map.
  - apply Forall_map, Forall_forall. intros lbl _. now rewrite length_map.
  - rewrite Hsums, map_map. simpl.
    rewrite <- Hfst at 1. now rewrite map_map.
  - rewrite Hsums. apply SklearnFacts.support_total.
Qed.

Lemma evaluate_report_ok y_true y_pred w w' u :
  evaluate_report y_true y_pred w = (w', Ok u) ->
  exists rows cm,
    Sklearn.classification_report y_true y_pred target_names = Ok rows
    /\ Sklearn.confusion_matrix y_true y_pred = Ok cm
    /\ stdout w' = stdout w ++ [OutLine "Classification Report:"; OutReport rows;
                                OutLine "Confusion Matrix:"; OutMatrix cm].
Proof.
  unfold evaluate_report, bind, lift, print. simpl.
  destruct (Sklearn.classification_report y_true y_pred target_names) as [rows|];
    [|discriminate].
  destruct (Sklearn.confusion_matrix y_true y_pred) as [cm|]; [|discriminate].
  intros H; inversion H; subst. simpl. exists rows, cm.
  repeat split. now rewrite <- !app_assoc.
Qed.

Lemma evaluate_ok dataloader w w' v :
  evaluate dataloader w = (w', Ok v) ->
  exists w1 y_true y_pred,
    evaluate_collect dataloader w = (w1, Ok (y_true, y_pred))
    /\ evaluate_report y_true y_pred w1 = (w', Ok tt).
Proof.
  unfold evaluate, bind at 1.
  destruct (evaluate_collect dataloader w) as [w1 [[y_true y_pred]|e]]; [|discriminate].
  unfold bind, ret.
  destruct (evaluate_report y_true y_pred w1) as [w2 [[]|e]] eqn:Er; [|discriminate].
  intros H; inversion H; subst. now exists w1, y_true, y_pred.
Qed.

(** The batches of a pass are collated lists of examples. *)
Lemma iter_dataloader_collated dl w w' batches :
  iter_dataloader dl w = (w', Ok batches) ->
  Forall (fun b => exists xs, b = collate xs) batches.
Proof.
  unfold iter_dataloader, bind, lift.
  destruct (sampler_indices (sampler dl) (length (dataset dl)) w) as [w1 [idx|e]];
    [|discriminate].
  destruct (load_batches (dataset dl) (batch_sampler (batch_size dl) idx []))
    as [bs|] eqn:El; intros H; inversion H; subst.
  now apply load_batches_ok in El as [_ El].
Qed.

Lemma collated_labels batches :
  Forall (fun b => exists xs, b = collate xs) batches ->
  concat (map snd batches) = map snd (concat (map examples_of batches)).
Proof.
  induction 1 as [|b batches [xs ->] _ IH]; [reflexivity|].
  simpl. rewrite map_app, examples_of_collate, IH. reflexivity.
Qed.

End ReportFacts.

(** X8. When [evaluate] returns, it has printed a report with one row per
    category name, in the order of [target_names], and a 10 by 10 confusion
    matrix whose row for a class adds up to that class's support in the
    report and whose entries add up to the number of examples of the
    dataset: every example is counted exactly once, shuffled or not. *)
Theorem evaluate_confusion_matrix_totals {B : Backend} {L : BackendLaws B}
    (dl : DataLoader) (w w' : World) (v : pyobj) :
  evaluate (Some dl) w = (w', Ok v) ->
  exists rows cm,
    stdout w' = stdout w ++ [OutLine "Classification Report:"; OutReport rows;
                             OutLine "Confusion Matrix:"; OutMatrix cm]
    /\ map row_name rows = target_names
    /\ shape2 cm 10 10
    /\ map (@list_sum) cm = map row_support rows
    /\ list_sum (map (@list_sum) cm) = length (dataset dl).
Proof.
  intros Hrun.
  destruct (evaluate_ok _ _ _ _ Hrun) as (w1 & y_true & y_pred & Hcollect & Hreport).
  destruct (evaluate_report_ok _ _ _ _ _ Hreport) as (rows & cm & Hrows & Hcm & Hout).
  destruct (report_values _ _ _ _ Hrows Hcm)
    as (Hlen & Hnames & Hshape & Hsums & Htotal).
  pose proof (evaluate_collect_quiet (Some dl) w) as Hquiet.
  rewrite Hcollect in Hquiet. simpl in Hquiet.
  destruct (evaluate_collect_ok dl w w1 y_true y_pred Hcollect)
    as (w0 & batches & Hiter & Hloop & Hsame & _).
  destruct (evaluate_loop_ok batches [] [] w0 w1 y_true y_pred w0 Hsame Hloop)
    as (Hy & _).
  destruct (iter_dataloader_stream dl _ _ _ Hiter) as [Hperm _].
  pose proof (iter_dataloader_collated dl _ _ _ Hiter) as Hcollated.
  exists rows, cm. repeat split; try apply Hshape; auto.
  - now rewrite Hout, Hquiet.
  - rewrite Htotal, Hy. simpl. rewrite (collated_labels batches Hcollated), length_map.
    now apply Permutation_length.
Qed.

Lemma evaluate_confusion_matrix_totals_witness :
  exists rows cm,
    stdout (fst (evaluate (Some (test_dataloader Stub.examples10)) Stub.world0))
      = [OutLine "Classification Report:"; OutReport rows;
         OutLine "Confusion Matrix:"; OutMatrix cm]
    /\ map (@list_sum) cm = map row_support rows
    /\ list_sum (map (@list_sum) cm) = 10%nat.
Proof.
  assert (E : evaluate (Some (test_dataloader Stub.examples10)) Stub.world0
              = (fst (evaluate (Some (test_dataloader Stub.examples10)) Stub.world0),
                 Ok PyNone)) by (vm_compute; reflexivity).
  destruct (@evaluate_confusion_matrix_totals Stub.backend stub_laws _ _ _ _ E)
    as (rows & cm & H1 & _ & _ & H4 & H5).
  exists rows, cm. repeat split; assumption.
Defined.

(** ** The script's datasets and loaders *)

Section ScriptFacts.

Lemma lines_loop_lengths py lines : forall text label t l,
  lines_loop py lines text label = Ok (t, l) ->
  length t = (length text + length lines)%nat
  /\ length l = (length label + length lines)%nat.
Proof.
  induction lines as [|line rest IH]; intros text label t l Hrun.
  - inversion Hrun; subst. simpl. lia.
  - rewrite lines_loop_step in Hrun.
    destruct (has_tab line); [|discriminate].
    destruct (pyint py (second_field line)) as [n|]; [|discriminate].
    apply IH in Hrun as [Ht Hl]. rewrite Ht, Hl, !length_app. simpl. lia.
Qed.

(** [convert_to_text_label] returns as many texts as labels, always. *)
Lemma convert_to_text_label_lengths py fs filename t l :
  convert_to_text_label py fs filename = Ok (t, l) -> length t = length l.
Proof.
  unfold convert_to_text_label. destruct (fs filename) as [content|]; [|discriminate].
  intros Hrun. apply lines_loop_lengths in Hrun as [Ht Hl]. simpl in *. lia.
Qed.

Lemma concat_singletons {A C} (f : A -> list C) (d : C) xs :
  (forall x, length (f x) = 1%nat) ->
  concat (map f xs) = map (fun x => hd d (f x)) xs.
Proof.
  intros Hone. induction xs as [|x xs IH]; [reflexivity|].
  simpl. rewrite IH. specialize (Hone x).
  destruct (f x) as [|c [|c' rest]]; try discriminate. reflexivity.
Qed.

Variable torch : Torch.

Lemma torch_cat0_ok tensors n :
  tensors <> [] ->
  Forall (fun t => Forall (fun r : list Z => length r = n) t) tensors ->
  torch_cat0 torch tensors = Ok (concat tensors).
Proof.
  intros Hne Hall. unfold torch_cat0. destruct tensors as [|t0 rest]; [contradiction|].
  assert (Hrows : Forall (fun r : list Z => length r = n) (concat (t0 :: rest))).
  { apply Forall_concat. exact Hall. }
  destruct (concat (t0 :: rest)) as [|r0 rows]; [reflexivity|].
  assert (Hall' : forallb (fun r => (length r =? length r0)%nat) (r0 :: rows) = true).
  { apply forallb_forall. intros r Hin. rewrite Forall_forall in Hrows.
    apply Nat.eqb_eq. rewrite (Hrows r Hin). symmetry. apply Hrows. now left. }
  now rewrite Hall'.
Qed.

Variable encode_plus : pystr -> list (list Z) * list (list Z).
Hypothesis Hpad : pads_to_128 encode_plus.

Lemma encode_texts_ok texts :
  texts <> [] ->
  encode_texts torch encode_plus texts
  = Ok (map (fun text => hd [] (fst (encode_plus text))) texts,
        map (fun text => hd [] (snd (encode_plus text))) texts).
Proof.
  intros Hne. unfold encode_texts.
  rewrite (torch_cat0_ok _ 128), (torch_cat0_ok _ 128).
  - rewrite (concat_singletons _ []), (concat_singletons _ []); [reflexivity | |];
      intros text; apply (Hpad text).
  - destruct texts; [contradiction | discriminate].
  - apply Forall_map, Forall_forall. intros text _. apply (Hpad text).
  - destruct texts; [contradiction | discriminate].
  - apply Forall_map, Forall_forall. intros text _. apply (Hpad text).
Qed.

Lemma combine_encoded texts : forall raws,
  length texts = length raws ->
  combine (combine (map (fun text => hd [] (fst (encode_plus text))) texts)
                   (map (fun text => hd [] (snd (encode_plus text))) texts))
          (normalize_labels raws)
  = map (fun tr => encoded_example encode_plus (fst tr) (snd tr)) (combine texts raws).
Proof.
  induction texts as [|text texts IH]; intros [|raw raws] Hlen; try discriminate;
    [reflexivity|].
  injection Hlen as Hlen. simpl. now rewrite <- IH.
Qed.

(** The dataset built from the texts and raw labels of a split. *)
Lemma build_dataset_ok texts raws :
  length texts = length raws ->
  (texts = [] ->
   build_dataset torch encode_plus (Ok (texts, normalize_labels raws))
   = Raised (cat_empty_error torch))
  /\ (texts <> [] ->
      forallb fits_int64 (normalize_labels raws) = true ->
      build_dataset torch encode_plus (Ok (texts, normalize_labels raws))
      = Done (map (fun tr => encoded_example encode_plus (fst tr) (snd tr))
                  (combine texts raws)))
  /\ (texts <> [] ->
      forallb fits_int64 (normalize_labels raws) = false ->
      build_dataset torch encode_plus (Ok (texts, normalize_labels raws))
      = Raised (overflow_error torch)).
Proof.
  intros Hlen. repeat split.
  - intros ->. reflexivity.
  - intros Hne Hfit. unfold build_dataset. rewrite (encode_texts_ok texts Hne).
    unfold torch_tensor. rewrite Hfit.
    unfold TensorDataset, normalize_labels. rewrite !length_map, Hlen, Nat.eqb_refl.
    simpl andb. cbv iota. rewrite <- (combine_encoded texts raws Hlen). reflexivity.
  - intros Hne Hfit. unfold build_dataset. rewrite (encode_texts_ok texts Hne).
    unfold torch_tensor. now rewrite Hfit.
Qed.

Lemma encoded_example_shape text raw :
  length (fst (fst (encoded_example encode_plus text raw))) = 128%nat
  /\ length (snd (fst (encoded_example encode_plus text raw))) = 128%nat.
Proof.
  destruct (Hpad text) as [[Hl1 Hr1] [Hl2 Hr2]]. unfold encoded_example. simpl.
  destruct (fst (encode_plus text)) as [|r1 ?]; [discriminate|].
  destruct (snd (encode_plus text)) as [|r2 ?]; [discriminate|].
  inversion Hr1; inversion Hr2; subst. simpl. auto.
Qed.

End ScriptFacts.

(** X9. The training set of the script: with a tokenizer that pads every
    text to one row of 128 ids and 128 mask entries, and labels that fit a
    64-bit tensor entry once 2 is subtracted, the loader built from train.txt
    and dev.txt holds one example per line of the two files, in file order
    (train.txt first), each made of the line's encoded text and its raw label
    minus 2, in batches of 32 under the random sampler; the size check of
    [TensorDataset] never fails.  When the two files have no line at all,
    [torch.cat] fails on the empty list; when a label does not fit,
    [torch.tensor] fails. *)
Theorem script_train_dataset
    (torch : Torch) (py : Interpreter)
    (encode_plus : pystr -> list (list Z) * list (list Z))
    (fs : filesystem) (t1 t2 : list pystr) (r1 r2 : list Z) :
  pads_to_128 encode_plus ->
  convert_to_text_label py fs "./myBERT/train.txt" = Ok (t1, r1) ->
  convert_to_text_label py fs "./myBERT/dev.txt" = Ok (t2, r2) ->
  (t1 ++ t2 = [] ->
   script_train_dataloader torch encode_plus py fs = Raised (cat_empty_error torch))
  /\ (t1 ++ t2 <> [] ->
      forallb fits_int64 (map (fun raw => raw - 2) (r1 ++ r2)) = false ->
      script_train_dataloader torch encode_plus py fs = Raised (overflow_error torch))
  /\ (t1 ++ t2 <> [] ->
      forallb fits_int64 (map (fun raw => raw - 2) (r1 ++ r2)) = true ->
      exists train_dataset,
        script_train_dataloader torch encode_plus py fs
          = Done (mkDataLoader train_dataset RandomSampler 32)
        /\ train_dataset
           = map (fun tr => encoded_example encode_plus (fst tr) (snd tr))
                 (combine (t1 ++ t2) (r1 ++ r2))
        /\ length train_dataset = (length t1 + length t2)%nat
        /\ Forall (fun ex => length (fst (fst ex)) = 128%nat
                             /\ length (snd (fst ex)) = 128%nat) train_dataset).
Proof.
  intros Hpad H1 H2.
  assert (Hlen : length (t1 ++ t2) = length (r1 ++ r2)).
  { rewrite !length_app, (convert_to_text_label_lengths _ _ _ _ _ H1),
      (convert_to_text_label_lengths _ _ _ _ _ H2). reflexivity. }
  destruct (build_dataset_ok torch encode_plus Hpad (t1 ++ t2) (r1 ++ r2) Hlen)
    as (Hempty & Hfull & Hover).
  unfold script_train_dataloader, load_train. rewrite H1, H2. cbn [app].
  repeat split.
  - intros Hnil. now rewrite (Hempty Hnil).
  - intros Hne Hfit. now rewrite (Hover Hne Hfit).
  - intros Hne Hfit. rewrite (Hfull Hne Hfit). eexists. split; [reflexivity|].
    split; [reflexivity|]. split.
    + rewrite length_map, length_combine, <- Hlen, Nat.min_id. apply length_app.
    + apply Forall_map, Forall_forall. intros [text raw] _.
      apply (encoded_example_shape encode_plus Hpad).
Qed.

Lemma stub_tokenizer_pads : pads_to_128 StubTokenizer.encode_plus.
Proof.
  intros text. unfold StubTokenizer.encode_plus. simpl.
  split; (split; [reflexivity | constructor; [reflexivity | constructor]]).
Qed.

Lemma script_train_dataset_witness :
  exists train_dataset,
    script_train_dataloader StubTokenizer.torch StubTokenizer.encode_plus
      Samples.cpython Samples.sample_fs
      = Done (mkDataLoader train_dataset RandomSampler 32)
    /\ length train_dataset = 3%nat
    /\ map snd train_dataset = [1; 9; 5].
Proof.
  destruct (script_train_dataset StubTokenizer.torch Samples.cpython
              StubTokenizer.encode_plus Samples.sample_fs
              _ _ _ _ stub_tokenizer_pads eq_refl eq_refl) as (_ & _ & Hfull).
  destruct (Hfull ltac:(discriminate) eq_refl) as (ds & Hrun & Hds & Hlen & _).
  exists ds. split; [exact Hrun|]. split; [exact Hlen|]. now rewrite Hds.
Defined.

(** ** From the script's loaders to the classifier *)

Section Feeding.
Context {B : Backend}.

(** Every batch of [batch_sampler] has between 1 and [bs] indices. *)
Lemma batch_sampler_sizes bs idx : forall batch,
  (0 < bs)%nat -> (length batch < bs)%nat ->
  Forall (fun c => (1 <= length c <= bs)%nat) (batch_sampler bs idx batch).
Proof.
  induction idx as [|i rest IH]; intros batch Hbs Hlt; cbn [batch_sampler].
  - destruct (0 <? length batch)%nat eqn:E; [|constructor].
    apply Nat.ltb_lt in E. constructor; [lia | constructor].
  - destruct (length (batch ++ [i]) =? bs)%nat eqn:E.
    + apply Nat.eqb_eq in E. constructor; [lia|]. apply IH; simpl; lia.
    + apply Nat.eqb_neq in E. rewrite length_app in E. simpl in E.
      apply IH; [lia|]. rewrite length_app. simpl. lia.
Qed.

Lemma fetch_members ds c : forall xs,
  fetch ds c = Ok xs -> length xs = length c /\ Forall (fun x => In x ds) xs.
Proof.
  induction c as [|i rest IH]; intros xs H; simpl in H.
  - inversion H; subst. split; [reflexivity | constructor].
  - unfold getitem in H. destruct (nth_error ds i) as [x|] eqn:Ei; [|discriminate].
    destruct (fetch ds rest) as [xs'|]; [|discriminate].
    inversion H; subst. destruct (IH xs' eq_refl) as [Hlen Hall].
    split; [simpl; now rewrite Hlen|].
    constructor; [eapply nth_error_In; eauto | exact Hall].
Qed.

Lemma load_batches_members ds n chunks : forall batches,
  Forall (fun c => (1 <= length c <= n)%nat) chunks ->
  load_batches ds chunks = Ok batches ->
  Forall (fun b => exists xs, b = collate xs /\ (1 <= length xs <= n)%nat
                              /\ Forall (fun x => In x ds) xs) batches.
Proof.
  induction chunks as [|c rest IH]; intros batches Hsizes H; simpl in H.
  - inversion H; subst. constructor.
  - inversion Hsizes as [|? ? Hc Hrest]; subst.
    destruct (fetch ds c) as [xs|] eqn:Ef; [|discriminate].
    destruct (load_batches ds rest) as [bs|]; [|discriminate].
    inversion H; subst. apply fetch_members in Ef as [Hlen Hin].
    constructor; [|now apply IH].
    exists xs. repeat split; try exact Hin; lia.
Qed.

(** The batches of a pass: collated examples of the dataset, between 1
    and [batch_size] of them each. *)
Lemma iter_dataloader_members dl w w' batches :
  (0 < batch_size dl)%nat ->
  iter_dataloader dl w = (w', Ok batches) ->
  Forall (fun b => exists xs, b = collate xs
                              /\ (1 <= length xs <= batch_size dl)%nat
                              /\ Forall (fun x => In x (dataset dl)) xs) batches.
Proof.
  intros Hbs. unfold iter_dataloader, bind, lift.
  destruct (sampler_indices (sampler dl) (length (dataset dl)) w) as [w1 [idx|e]];
    [|discriminate].
  destruct (load_batches (dataset dl) (batch_sampler (batch_size dl) idx []))
    as [bs|] eqn:El; intros H; inversion H; subst.
  eapply load_batches_members; [|exact El].
  apply batch_sampler_sizes; simpl; lia.
Qed.

Lemma collate_shape xs n :
  Forall (fun ex : Example => length (fst (fst ex)) = n /\ length (snd (fst ex)) = n) xs ->
  shape2 (fst (fst (collate xs))) (length xs) n
  /\ shape2 (snd (fst (collate xs))) (length xs) n
  /\ length (snd (collate xs)) = length xs.
Proof.
  intros Hall. unfold collate. simpl. repeat split; try apply length_map;
    apply Forall_map; eapply Forall_impl; [|exact Hall| |exact Hall]; simpl; intuition.
Qed.

(** A classifier built by the constructor returns one row of [num_labels]
    logits per example of a well-shaped batch. *)
Lemma forward_returns_logits {L : BackendLaws B}
    bert_path num_labels hidden_size lstm_hidden_size g w ids mask b l :
  params w = fst (BERTBiLSTM_init bert_path num_labels hidden_size lstm_hidden_size g) ->
  (1 <= b)%nat -> (1 <= l <= 512)%nat ->
  shape2 ids b l -> shape2 mask b l ->
  exists logits w', forward ids mask w = (w', Ok logits) /\ shape2 logits b num_labels.
Proof.
  intros Hp Hb Hl Hids Hmask.
  destruct (BERTBiLSTM_init_fields bert_path num_labels hidden_size lstm_hidden_size g)
    as (_ & [g0 Hlstm] & [g1 Hcls]).
  rewrite <- Hp in Hlstm, Hcls.
  destruct (bert_forward_shape (bert (params w)) ids mask b l Hb (proj1 Hl) (proj2 Hl)
              Hids Hmask) as (out & Hout & Hshape).
  destruct (lstm_forward_shape (bert_hidden_size (bert (params w))) lstm_hidden_size g0
              out b l Hb (proj1 Hl) Hshape) as (lo & h_n & c_n & Hrun & Hh).
  rewrite <- Hlstm in Hrun.
  destruct (h_n_directions h_n b lstm_hidden_size Hh)
    as (fw & bw & _ & Hfw & Hbw & Sfw & Sbw).
  destruct (cat_dim1_shape fw bw b lstm_hidden_size Sfw Sbw) as [Hcat Spooled].
  destruct (dropout_shape _ b (2 * lstm_hidden_size) w Spooled)
    as (w' & dropped & Hdrop & Sdropped & _).
  destruct (nn_Linear_shape (2 * lstm_hidden_size) num_labels g1)
    as (Hin & Hout' & Sw & Sb).
  rewrite <- Hcls in Hin, Hout', Sw, Sb.
  destruct (linear_shape (classifier (params w)) dropped b) as [Hlin Slogits];
    [now rewrite Hin, Hout' | now rewrite Hout' | now rewrite Hin |].
  rewrite Hout' in Slogits.
  exists (map (linear_row (classifier (params w))) dropped), w'.
  split; [|exact Slogits].
  unfold forward, bind, lift, ret. now rewrite Hout, Hrun, Hfw, Hbw, Hcat, Hdrop, Hlin.
Qed.

Lemma torch_cat0_rows torch tensors rows :
  torch_cat0 torch tensors = Ok rows -> rows = concat tensors.
Proof.
  unfold torch_cat0. destruct tensors as [|t0 rest]; [discriminate|].
  destruct (concat (t0 :: rest)) as [|r0 rs]; [now intros H; inversion H|].
  destruct (forallb _ (r0 :: rs)); intros H; now inversion H.
Qed.

(** Every example of a dataset the script builds has 128 ids and 128 mask
    entries. *)
Lemma build_dataset_shape torch encode_plus loaded ds :
  pads_to_128 encode_plus ->
  build_dataset torch encode_plus loaded = Done ds ->
  Forall (fun ex : Example => length (fst (fst ex)) = 128%nat
                              /\ length (snd (fst ex)) = 128%nat) ds.
Proof.
  intros Hpad. unfold build_dataset, encode_texts.
  destruct loaded as [[texts labels]|]; [|discriminate].
  destruct (torch_cat0 torch (map (fun text => fst (encode_plus text)) texts))
    as [ids|] eqn:Ei; [|discriminate].
  destruct (torch_cat0 torch (map (fun text => snd (encode_plus text)) texts))
    as [masks|] eqn:Em; [|discriminate].
  apply torch_cat0_rows in Ei, Em.
  destruct (torch_tensor torch labels) as [labels'|]; [|discriminate].
  unfold TensorDataset.
  destruct (_ && _); [|discriminate]. intros H; inversion H; subst ds.
  assert (Hi : Forall (fun r : list Z => length r = 128%nat) ids).
  { subst ids. apply Forall_concat, Forall_map, Forall_forall. intros text _.
    apply (Hpad text). }
  assert (Hm : Forall (fun r : list Z => length r = 128%nat) masks).
  { subst masks. apply Forall_concat, Forall_map, Forall_forall. intros text _.
    apply (Hpad text). }
  apply Forall_forall. intros [[i m] y] Hin. simpl.
  apply in_combine_l in Hin. rewrite Forall_forall in Hi, Hm. split.
  - apply Hi. eapply in_combine_l; eauto.
  - apply Hm. eapply in_combine_r; eauto.
Qed.

End Feeding.

(** X10. Every batch the script's loaders yield is a valid input of the
    classifier: with a tokenizer that pads to 128, a batch of the training
    or of the test loader holds between 1 and 32 examples, its ids and its
    mask are of shape (n, 128) with one label per example, and the forward
    pass of a classifier built by [BERTBiLSTM.__init__] returns logits of
    shape (n, num_labels) on it. *)
Theorem script_batches_feed_forward {B : Backend} {L : BackendLaws B}
    (torch : Torch) (py : Interpreter)
    (encode_plus : pystr -> list (list Z) * list (list Z))
    (fs : filesystem) (dl : DataLoader) (w w1 wm : World) (batches : list Batch)
    (bert_path : string) (num_labels hidden_size lstm_hidden_size : nat) (g : Rng) :
  pads_to_128 encode_plus ->
  script_train_dataloader torch encode_plus py fs = Done dl
    \/ script_test_dataloader torch encode_plus py fs = Done dl ->
  iter_dataloader dl w = (w1, Ok batches) ->
  params wm = fst (BERTBiLSTM_init bert_path num_labels hidden_size lstm_hidden_size g) ->
  Forall (fun b => exists n logits wm',
              (1 <= n <= 32)%nat
              /\ length (snd b) = n
              /\ shape2 (fst (fst b)) n 128
              /\ shape2 (snd (fst b)) n 128
              /\ forward (fst (fst b)) (snd (fst b)) wm = (wm', Ok logits)
              /\ shape2 logits n num_labels) batches.
Proof.
  intros Hpad Hbuilt Hiter Hmodel.
  assert (Hdl : batch_size dl = 32%nat
                /\ Forall (fun ex : Example => length (fst (fst ex)) = 128%nat
                                               /\ length (snd (fst ex)) = 128%nat)
                          (dataset dl)).
  { destruct Hbuilt as [Hb|Hb].
    - unfold script_train_dataloader in Hb.
      destruct (build_dataset torch encode_plus (load_train py fs)) as [ds| |] eqn:Eb;
        try discriminate.
      inversion Hb; subst dl. split; [reflexivity|].
      now apply (build_dataset_shape torch encode_plus (load_train py fs)).
    - unfold script_test_dataloader in Hb.
      destruct (build_dataset torch encode_plus (load_test py fs)) as [ds| |] eqn:Eb;
        try discriminate.
      inversion Hb; subst dl. split; [reflexivity|].
      now apply (build_dataset_shape torch encode_plus (load_test py fs)). }
  destruct Hdl as [Hbs Hshape].
  pose proof (iter_dataloader_members dl w w1 batches ltac:(lia) Hiter) as Hmem.
  rewrite Hbs in Hmem. eapply Forall_impl; [|exact Hmem].
  intros b (xs & -> & Hn & Hin).
  assert (Hxs : Forall (fun ex : Example => length (fst (fst ex)) = 128%nat
                                            /\ length (snd (fst ex)) = 128%nat) xs).
  { apply Forall_forall. intros x Hx. rewrite Forall_forall in Hin, Hshape.
    apply Hshape, Hin, Hx. }
  destruct (collate_shape xs 128 Hxs) as (Sids & Smask & Slabels).
  destruct (forward_returns_logits bert_path num_labels hidden_size lstm_hidden_size g wm
              (fst (fst (collate xs))) (snd (fst (collate xs))) (length xs) 128
              Hmodel ltac:(lia) ltac:(lia) Sids Smask) as (logits & wm' & Hrun & Slogits).
  exists (length xs), logits, wm'. repeat split; try apply Sids; try apply Smask;
    try apply Slogits; auto; lia.
Qed.

Lemma script_batches_feed_forward_witness :
  Forall (fun b => exists n logits wm',
              (1 <= n <= 32)%nat
              /\ length (snd b) = n
              /\ shape2 (fst (fst b)) n 128
              /\ shape2 (snd (fst b)) n 128
              /\ forward (fst (fst b)) (snd (fst b)) Stub.world0 = (wm', Ok logits)
              /\ shape2 logits n 10) StubTokenizer.sample_batches.
Proof.
  assert (Ebuilt : script_train_dataloader StubTokenizer.torch StubTokenizer.encode_plus
                     Samples.cpython Samples.sample_fs
                   = Done StubTokenizer.sample_loader) by (vm_compute; reflexivity).
  assert (Eiter : iter_dataloader StubTokenizer.sample_loader Stub.world0
                  = (fst (iter_dataloader StubTokenizer.sample_loader Stub.world0),
                     Ok StubTokenizer.sample_batches)) by (vm_compute; reflexivity).
  exact (@script_batches_feed_forward Stub.backend stub_laws StubTokenizer.torch
           Samples.cpython StubTokenizer.encode_plus
           Samples.sample_fs StubTokenizer.sample_loader Stub.world0 _ Stub.world0
           StubTokenizer.sample_batches "bert-base-chinese" 10 768 3 0%nat
           stub_tokenizer_pads (or_introl Ebuilt) Eiter eq_refl).
Defined.

(** ** When ingestion succeeds *)

Lemma lines_loop_ok py lines : forall text label,
  is_ok (lines_loop py lines text label) = forallb (well_formed_line py) lines.
Proof.
  induction lines as [|line rest IH]; intros text label; [reflexivity|].
  rewrite lines_loop_step. cbn [forallb]. unfold well_formed_line at 1.
  destruct (has_tab line); [|reflexivity].
  destruct (pyint py (second_field line)) as [n|e]; [|reflexivity].
  simpl. apply IH.
Qed.

(** X11. [convert_to_text_label] returns its two lists exactly when the file
    exists and every one of its lines has a tab followed by a field that
    [int()] accepts; in every other case it raises. *)
Theorem convert_to_text_label_succeeds_iff
    (py : Interpreter) (fs : filesystem) (filename : string) :
  is_ok (convert_to_text_label py fs filename)
  = match fs filename with
    | Some content => forallb (well_formed_line py) (readlines content)
    | None => false
    end.
Proof.
  unfold convert_to_text_label. destruct (fs filename) as [content|]; [|reflexivity].
  apply lines_loop_ok.
Qed.
